(** * permeability/plotting.py: ensemble statistics and profile rendering

    A shallow embedding of [src/permeability/plotting.py].

    - Array elements are real numbers ([R]): NumPy's float64 rounding,
      infinities and NaN are outside the model, so a quotient by zero has
      no meaning here and every statement that depends on one carries a
      non-zero hypothesis.
    - A NumPy array is its shape together with its row-major buffer.
    - Python exceptions are values of [exn]; a routine is a function from
      the world before the call to its outcome and the world after it, and
      what was done before an exception was raised stays done.
    - matplotlib is the drawing-surface collaborator: the world records the
      calls made on it, in order, and the only failures of it that are
      modelled are the dimension checks of the plot family and of
      [fill_between].
    - Keyword arguments are passed explicitly; the defaults of the source
      are not part of the embedding.
    - The smoothing filter of [permeability.functions], which
      [plot_timeseries] calls, is not in this file: it is a parameter of
      the embedding. *)

From Stdlib Require Import Reals Lra Lia List String Bool Arith ZArith.
From stdpp Require Import base option list gmap.
Import ListNotations.

(** ** Python exceptions and outcomes *)

Inductive exn : Set :=
| IndexError   (* subscript out of range *)
| ValueError   (* NumPy broadcasting, matplotlib dimension checks *)
| TypeError    (* iteration over a 0-d array *)
| AxisError    (* reduction along an axis the array does not have *)
| ShapeError   (* named by the specification only *)
| DomainError. (* named by the specification only *)

Inductive result (A : Type) : Type :=
| Ok (a : A)
| Raise (e : exn).
Arguments Ok {A} a.
Arguments Raise {A} e.

Definition result_bind {A B} (r : result A) (k : A -> result B) : result B :=
  match r with Ok a => k a | Raise e => Raise e end.

(** ** NumPy arrays *)

Record ndarray : Type := NdArray { shape : list nat; data : list R }.

Definition size_of (sh : list nat) : nat := fold_right Nat.mul 1%nat sh.

Definition ndim (a : ndarray) : nat := length (shape a).

(** The buffer holds exactly the elements the shape announces. *)
Definition well_shaped (a : ndarray) : Prop :=
  length (data a) = size_of (shape a).

(** A 1-D array, a 0-d array. *)
Definition vec (l : list R) : ndarray := NdArray [length l] l.
Definition scalar (x : R) : ndarray := NdArray [] [x].

(** [a.reshape((1, -1))]: one row, the column count inferred from the
    number of elements. *)
Definition reshape_1_m1 (a : ndarray) : ndarray :=
  NdArray [1%nat; length (data a)] (data a).

(** The [n] consecutive blocks of [p] elements of a buffer: the sub-arrays
    along the first axis. *)
Fixpoint chunks (n p : nat) (l : list R) : list (list R) :=
  match n with
  | O => []
  | S n' => take p l :: chunks n' p (drop p l)
  end.

(** [for row in a]: a 0-d array cannot be iterated over. *)
Definition iterate (a : ndarray) : result (list ndarray) :=
  match shape a with
  | [] => Raise TypeError
  | d0 :: rest =>
      Ok (map (NdArray rest) (chunks d0 (size_of rest) (data a)))
  end.

(** Element-wise operations on buffers of the same length. *)
Definition vadd (u v : list R) : list R := zip_with Rplus u v.
Definition vsub (u v : list R) : list R := zip_with Rminus u v.

(** [np.add.reduce] over a list of blocks of [p] elements. *)
Definition sum_rows (p : nat) (rows : list (list R)) : list R :=
  foldl vadd (replicate p 0%R) rows.

(** [np.mean(a, axis=0)]: the sum along the first axis over its length. *)
Definition np_mean_axis0 (a : ndarray) : result ndarray :=
  match shape a with
  | [] => Raise AxisError
  | d0 :: rest =>
      let rows := chunks d0 (size_of rest) (data a) in
      Ok (NdArray rest
            (map (fun s => (s / INR d0)%R) (sum_rows (size_of rest) rows)))
  end.

(** [np.std(a, axis=0)], [ddof = 0]: with [arrmean] the mean along the
    axis, [x = a - arrmean], [x = x * x], the square root of the sum of
    [x] along the axis over the length of the axis. *)
Definition np_std_axis0 (a : ndarray) : result ndarray :=
  match shape a with
  | [] => Raise AxisError
  | d0 :: rest =>
      let p := size_of rest in
      let rows := chunks d0 p (data a) in
      let arrmean := map (fun s => (s / INR d0)%R) (sum_rows p rows) in
      let x := map (fun r => map (fun d => (d * d)%R) (vsub r arrmean)) rows in
      Ok (NdArray rest
            (map sqrt (map (fun s => (s / INR d0)%R) (sum_rows p x))))
  end.

(** [a.shape[0]]. *)
Definition shape0 (a : ndarray) : result nat :=
  match shape a with
  | [] => Raise IndexError
  | d0 :: _ => Ok d0
  end.

(** [u + v] and [u - v] for two arrays of one shape. *)
Definition nd_add (u v : ndarray) : ndarray :=
  NdArray (shape u) (vadd (data u) (data v)).
Definition nd_sub (u v : ndarray) : ndarray :=
  NdArray (shape u) (vsub (data u) (data v)).

(** [a / c] for a number [c]. *)
Definition nd_div_scalar (a : ndarray) (c : R) : ndarray :=
  NdArray (shape a) (map (fun s => (s / c)%R) (data a)).

(** ** The statistics of the sweep routines

    [plot_forces] (lines 39 and 41), [plot_free_energy_z] (89 and 91) and
    [plot_resistance_z] (181 and 182) compute the same two expressions. *)

(** [np.mean(forces, axis=0)] *)
Definition ensemble_mean (forces : ndarray) : result ndarray :=
  np_mean_axis0 forces.

(** [np.std(forces, axis=0) / np.sqrt(forces.shape[0])] *)
Definition ensemble_std_err (forces : ndarray) : result ndarray :=
  result_bind (np_std_axis0 forces) (fun sd =>
  result_bind (shape0 forces) (fun n =>
  Ok (nd_div_scalar sd (sqrt (INR n))))).

(** Lines 35-36 and 85-86:
    [if forces.ndim == 1: forces = forces.reshape((1, -1))]. *)
Definition normalize_to_matrix (forces : ndarray) : ndarray :=
  if (ndim forces =? 1)%nat then reshape_1_m1 forces else forces.

(** ** The statistics in the words of the specification *)

Definition Rsum (xs : list R) : R := fold_right Rplus 0%R xs.

Definition average (xs : list R) : R := (Rsum xs / INR (length xs))%R.

Definition population_std (xs : list R) : R :=
  sqrt (Rsum (map (fun x => ((x - average xs) * (x - average xs))%R) xs)
        / INR (length xs)).

(** Column [j] of a sweep matrix: entry [j] of every row. *)
Definition rows_of (a : ndarray) : list (list R) :=
  match shape a with
  | [] => []
  | d0 :: rest => chunks d0 (size_of rest) (data a)
  end.

Definition column (a : ndarray) (j : nat) : list R :=
  map (fun r => nth j r 0%R) (rows_of a).

(** [u + v] and [u - v] for two 1-D arrays handed in by the caller, with
    NumPy's broadcasting: equal lengths, or one of the two of length 1. *)
Definition np_binop (f : R -> R -> R) (u v : list R) : result (list R) :=
  if (length u =? length v)%nat then Ok (zip_with f u v)
  else match u, v with
       | [x], _ => Ok (map (f x) v)
       | _, [y] => Ok (map (fun x => f x y) u)
       | _, _ => Raise ValueError
       end.

(** [a[0]] and [a[-1]] of a 1-D array. *)
Definition index0 (a : list R) : result R :=
  match a with
  | [] => Raise IndexError
  | x :: _ => Ok x
  end.

Definition index_last (a : list R) : result R :=
  match last a with
  | None => Raise IndexError
  | Some x => Ok x
  end.

(** ** The drawing surface *)

Inductive scale : Set := Linear | SemilogX | SemilogY | LogLog.

Inductive color : Set :=
| Named (c : string)
| ColorOf (line : nat).   (* [line.get_color()] *)

Record line_style : Type := LineStyle {
  ls_label : option string;
  ls_alpha : option R;
  ls_zorder : option Z;
  ls_linestyle : option string;
  ls_color : option string
}.

Definition plain : line_style := LineStyle None None None None None.

(** The calls made on matplotlib. Figures and axes are handles; [plt.xlim]
    and [plt.ylim] are calls on the [pyplot] module, as in the source. *)
Inductive call : Type :=
| PltSubplots (fig : nat)
| AxPlot (ax : nat) (sc : scale) (x : list R) (y : ndarray) (st : line_style)
| AxFillBetween (ax : nat) (x : list R) (y1 y2 : ndarray)
    (facecolor edgecolor : color) (alpha : option R)
| AxSetXlabel (ax : nat) (s : string)
| AxSetYlabel (ax : nat) (s : string)
| AxGrid (ax : nat) (b : bool) (c : option string)
| AxTickParams (ax : nat) (pad : Z)
| AxLegend (ax : nat)
| AxSetYlimBottom (ax : nat) (bottom : R)
| PltXlim (lo hi : R)
| PltYlim (lo hi : R)
| FigTightLayout (fig : nat)
| FigSavefig (fig : nat) (filename : string) (bbox_tight : bool)
| PltShow.

(** The world: the next fresh figure handle, the calls made so far (oldest
    first) and the arrays the caller shares with the routines. *)
Record world : Type := World {
  next_handle : nat;
  trace : list call;
  heap : gmap nat (list R)
}.

Definition M (A : Type) : Type := world -> result A * world.

#[global] Instance M_ret : MRet M := fun A a w => (Ok a, w).

#[global] Instance M_bind : MBind M := fun A B k m w =>
  match m w with
  | (Ok a, w') => k a w'
  | (Raise e, w') => (Raise e, w')
  end.

Definition lift {A} (r : result A) : M A := fun w => (r, w).

Definition emit (c : call) : M unit := fun w =>
  (Ok tt, World (next_handle w) (trace w ++ [c]) (heap w)).

Fixpoint for_each {A} (l : list A) (body : A -> M unit) : M unit :=
  match l with
  | [] => mret tt
  | x :: l' => body x ;; for_each l' body
  end.

(** [for i, x in enumerate(l)], counting from [i]. *)
Fixpoint for_enumerate {A} (i : nat) (l : list A) (body : nat -> A -> M unit)
  : M unit :=
  match l with
  | [] => mret tt
  | x :: l' => body i x ;; for_enumerate (S i) l' body
  end.

(** The image files written so far. *)
Definition saved (w : world) : list string :=
  omap (fun c => match c with FigSavefig _ f _ => Some f | _ => None end)
       (trace w).

(** [np.atleast_1d(y).shape[0]] *)
Definition first_dim (y : ndarray) : nat :=
  match shape y with
  | [] => 1%nat
  | d :: _ => d
  end.

(** The check of the plot family: [x] and [y] must have the same first
    dimension, and [y] at most two. *)
Definition plot_args_ok (x : list R) (y : ndarray) : bool :=
  (length x =? first_dim y)%nat && (ndim y <=? 2)%nat.

Definition broadcastable (a b : nat) : bool :=
  (a =? b)%nat || (a =? 1)%nat || (b =? 1)%nat.

(** The check of [fill_between]: both curves at most 1-D, and the three
    arguments broadcast to one length. *)
Definition fill_between_ok (x : list R) (y1 y2 : ndarray) : bool :=
  (ndim y1 <=? 1)%nat && (ndim y2 <=? 1)%nat
  && broadcastable (length x) (first_dim y1)
  && broadcastable (length x) (first_dim y2)
  && broadcastable (first_dim y1) (first_dim y2).

(** [fig, ax = plt.subplots()] *)
Definition plt_subplots : M (nat * nat) := fun w =>
  let n := next_handle w in
  (Ok (n, n), World (S n) (trace w ++ [PltSubplots n]) (heap w)).

(** [ax.plot], [ax.semilogx], [ax.semilogy], [ax.loglog]; the line handle
    is the position of the call. *)
Definition ax_plot (ax : nat) (sc : scale) (x : list R) (y : ndarray)
    (st : line_style) : M nat := fun w =>
  if plot_args_ok x y
  then (Ok (length (trace w)),
        World (next_handle w) (trace w ++ [AxPlot ax sc x y st]) (heap w))
  else (Raise ValueError, w).

Definition ax_fill_between (ax : nat) (x : list R) (y1 y2 : ndarray)
    (facecolor edgecolor : color) (alpha : option R) : M unit :=
  if fill_between_ok x y1 y2
  then emit (AxFillBetween ax x y1 y2 facecolor edgecolor alpha)
  else lift (Raise ValueError).

(** [ax.legend(bbox_to_anchor=(0., 1.02, 1., .102), loc=3, ncol=2,
    mode="expand", borderaxespad=0., fontsize='medium')] when asked for. *)
Definition legend_if (addlegend : bool) (ax : nat) : M unit :=
  if addlegend then emit (AxLegend ax) else mret tt.

(** [if figax == (None, None): fig, ax = plt.subplots()]
    [else: fig, ax = figax] *)
Definition figure_and_axis (figax : option (nat * nat)) : M (nat * nat) :=
  match figax with
  | None => plt_subplots
  | Some fa => mret fa
  end.

(** ** The sweep routines *)

(** The body shared by [plot_forces] (lines 35-54) and
    [plot_free_energy_z] (lines 85-105), which differ in the label of the
    y axis only. *)
Definition plot_sweeps (ylabel : string) (z_windows : list R)
    (forces : ndarray) (fig_filename z_units : string) (plot_mean : bool)
    (sweep_alpha : R) (grid : bool) : M unit :=
  let forces := normalize_to_matrix forces in
  fa ← plt_subplots;
  let fig := fa.1 in
  let ax := fa.2 in
  (if plot_mean then
     mean_force ← lift (ensemble_mean forces);
     ax_plot ax Linear z_windows mean_force plain;;
     std_err ← lift (ensemble_std_err forces);
     ax_fill_between ax z_windows
       (nd_add mean_force std_err) (nd_sub mean_force std_err)
       (Named "#a8a8a8") (Named "#a8a8a8") None
   else mret tt);;
  sweeps ← lift (iterate forces);
  for_each sweeps (fun force_series =>
    ax_plot ax Linear z_windows force_series
      (LineStyle None (Some sweep_alpha) (Some 0%Z) None None);;
    mret tt);;
  emit (AxSetXlabel ax ("z [" ++ z_units ++ "]"));;
  emit (AxSetYlabel ax ylabel);;
  emit (AxGrid ax grid None);;
  zmin ← lift (index0 z_windows);
  emit (PltXlim zmin (- zmin));;
  emit (AxTickParams ax 8);;
  emit (FigTightLayout fig);;
  emit (FigSavefig fig fig_filename false);;
  emit PltShow.

Definition plot_forces (z_windows : list R) (forces : ndarray)
    (fig_filename z_units force_units : string) (plot_mean : bool)
    (sweep_alpha : R) (grid : bool) : M unit :=
  plot_sweeps ("F(z) [" ++ force_units ++ "]") z_windows forces
    fig_filename z_units plot_mean sweep_alpha grid.

Definition plot_free_energy_z (z_windows : list R) (free_energy : ndarray)
    (fig_filename z_units energy_units : string) (plot_mean : bool)
    (sweep_alpha : R) (grid : bool) : M unit :=
  plot_sweeps ("ΔG(z) [" ++ energy_units ++ "]") z_windows free_energy
    fig_filename z_units plot_mean sweep_alpha grid.

(** Lines 176-202. *)
Definition plot_resistance_z (z_windows : list R) (resist : ndarray)
    (z_units Res_units fig_filename : string) (grid : bool)
    (sys_name : option string) (figax : option (nat * nat))
    (sweep_alpha : R) (savefig addlegend : bool) : M (nat * nat) :=
  fa ← figure_and_axis figax;
  let fig := fa.1 in
  let ax := fa.2 in
  resist_mean ← lift (ensemble_mean resist);
  resist_err ← lift (ensemble_std_err resist);
  ax_plot ax SemilogY z_windows resist_mean
    (LineStyle sys_name None None None None);;
  ax_fill_between ax z_windows
    (nd_add resist_mean resist_err) (nd_sub resist_mean resist_err)
    (Named "#a8a8a8") (Named "#a8a8a8") None;;
  sweeps ← lift (iterate resist);
  for_each sweeps (fun resistsweep =>
    ax_plot ax SemilogY z_windows resistsweep
      (LineStyle None (Some sweep_alpha) (Some 0%Z) None None);;
    mret tt);;
  emit (AxSetXlabel ax ("z [" ++ z_units ++ "]"));;
  emit (AxSetYlabel ax ("R(z) [" ++ Res_units ++ "]"));;
  emit (AxGrid ax grid None);;
  zmin ← lift (index0 z_windows);
  emit (PltXlim zmin (- zmin));;
  emit (AxTickParams ax 8);;
  legend_if addlegend ax;;
  (if savefig then
     emit (FigTightLayout fig);;
     emit (FigSavefig fig fig_filename true)
   else mret tt);;
  mret (fig, ax).

(** ** The routines for profiles reduced by the caller *)

(** The two dashed reference lines of the diffusion plots:
    [ax.plot([zmin, zmin+10], [3.86e-5, 3.86e-5], linestyle='--', color='r')]
    and the same over [[-zmin-10, -zmin]]. *)
Definition bulk_reference (ax : nat) (zmin : R) : M unit :=
  ax_plot ax Linear [zmin; (zmin + 10)%R] (vec [3.86e-5%R; 3.86e-5%R])
    (LineStyle None None None (Some "--"%string) (Some "r"%string));;
  ax_plot ax Linear [(- zmin - 10)%R; (- zmin)%R] (vec [3.86e-5%R; 3.86e-5%R])
    (LineStyle None None None (Some "--"%string) (Some "r"%string));;
  mret tt.

(** Lines 209-224. *)
Definition plot_diffusion_coefficient_z (z_windows : list R)
    (diffusion_coeff diffusion_coeff_err : list R)
    (z_units D_units fig_filename : string) (grid : bool) : M unit :=
  zmin ← lift (index0 z_windows);
  fa ← plt_subplots;
  let fig := fa.1 in
  let ax := fa.2 in
  ax_plot ax Linear z_windows (vec diffusion_coeff) plain;;
  bulk_reference ax zmin;;
  upper ← lift (np_binop Rplus diffusion_coeff diffusion_coeff_err);
  lower ← lift (np_binop Rminus diffusion_coeff diffusion_coeff_err);
  ax_fill_between ax z_windows (vec upper) (vec lower)
    (Named "#a8a8a8") (Named "#a8a8a8") None;;
  emit (AxSetXlabel ax ("z [" ++ z_units ++ "]"));;
  emit (AxSetYlabel ax ("D(z) [" ++ D_units ++ "]"));;
  emit (PltYlim 0 3e-4);;
  emit (PltXlim zmin (- zmin));;
  emit (AxTickParams ax 8);;
  emit (AxGrid ax grid None);;
  emit (FigTightLayout fig);;
  emit (FigSavefig fig fig_filename false).

(** Lines 231-255. *)
Definition plot_sym_diffusion_coefficient_z (z_windows : list R)
    (diffusion_coeff diffusion_coeff_err : list R)
    (z_units D_units fig_filename : string) (grid : bool)
    (sys_name : option string) (figax : option (nat * nat))
    (savefig addlegend : bool) : M (nat * nat) :=
  fa ← figure_and_axis figax;
  let fig := fa.1 in
  let ax := fa.2 in
  line ← ax_plot ax SemilogY z_windows (vec diffusion_coeff)
    (LineStyle sys_name None None None None);
  zmin ← lift (index0 z_windows);
  bulk_reference ax zmin;;
  upper ← lift (np_binop Rplus diffusion_coeff diffusion_coeff_err);
  lower ← lift (np_binop Rminus diffusion_coeff diffusion_coeff_err);
  ax_fill_between ax z_windows (vec upper) (vec lower)
    (ColorOf line) (ColorOf line) (Some 0.2%R);;
  emit (AxSetXlabel ax ("z [" ++ z_units ++ "]"));;
  emit (AxSetYlabel ax ("D(z) [" ++ D_units ++ "]"));;
  legend_if addlegend ax;;
  emit (PltXlim zmin (- zmin));;
  emit (AxTickParams ax 8);;
  emit (AxGrid ax grid None);;
  (if savefig then
     emit (FigTightLayout fig);;
     emit (FigSavefig fig fig_filename true)
   else mret tt);;
  mret (fig, ax).

(** Lines 285-308. *)
Definition plot_symmetrized_free_energy (z_windows : list R)
    (delta_G delta_G_err : list R)
    (z_units energy_units fig_filename : string) (grid : bool)
    (sys_name : option string) (figax : option (nat * nat))
    (savefig addlegend : bool) : M (nat * nat) :=
  fa ← figure_and_axis figax;
  let fig := fa.1 in
  let ax := fa.2 in
  line ← ax_plot ax Linear z_windows (vec delta_G)
    (LineStyle sys_name None None None None);
  upper ← lift (np_binop Rplus delta_G delta_G_err);
  lower ← lift (np_binop Rminus delta_G delta_G_err);
  ax_fill_between ax z_windows (vec upper) (vec lower)
    (ColorOf line) (ColorOf line) (Some 0.2%R);;
  emit (AxSetXlabel ax ("z [" ++ z_units ++ "]"));;
  emit (AxSetYlabel ax ("ΔG(z) [" ++ energy_units ++ "]"));;
  emit (AxGrid ax grid None);;
  legend_if addlegend ax;;
  zmin ← lift (index0 z_windows);
  emit (PltXlim zmin (- zmin));;
  emit (AxTickParams ax 8);;
  (if savefig then
     emit (AxSetYlimBottom ax 0);;
     emit (FigTightLayout fig);;
     emit (FigSavefig fig fig_filename true)
   else mret tt);;
  mret (fig, ax).

(** Lines 351-373. Both bounds handed to [fill_between] are
    [resist+resist_err], as the source has them. *)
Definition plot_sym_exp_free_energy (z_windows : list R)
    (dG dG_err diffz diffz_err resist resist_err : list R) (T kB : R)
    (z_units fig_filename : string) (grid addlegend : bool) : M unit :=
  fa ← plt_subplots;
  let fig := fa.1 in
  let ax := fa.2 in
  ax_plot ax SemilogY z_windows
    (vec (map (fun g => exp (g / (kB * T))) dG)) plain;;
  ax_plot ax SemilogY z_windows (vec (map (fun d => (1 / d)%R) diffz)) plain;;
  line ← ax_plot ax Linear z_windows (vec resist) plain;
  upper ← lift (np_binop Rplus resist resist_err);
  upper' ← lift (np_binop Rplus resist resist_err);
  ax_fill_between ax z_windows (vec upper) (vec upper')
    (ColorOf line) (ColorOf line) (Some 0.2%R);;
  emit (AxSetXlabel ax ("z [" ++ z_units ++ "]"));;
  emit (AxSetYlabel ax "1/D, exp(beta G)");;
  emit (AxGrid ax grid None);;
  zmin ← lift (index0 z_windows);
  emit (PltXlim zmin (- zmin));;
  emit (AxTickParams ax 8);;
  emit (FigTightLayout fig);;
  emit (FigSavefig fig fig_filename false).

(** ** The autocorrelation routines

    The sequences are arrays shared with the caller: the routines receive
    references into the heap, and [racf /= racf[0]] writes through them. *)

(** Reading the array behind a reference; a reference behind which there
    is no array is not subscriptable. *)
Definition load (l : nat) : M (list R) := fun w =>
  match heap w !! l with
  | Some a => (Ok a, w)
  | None => (Raise TypeError, w)
  end.

Definition store (l : nat) (a : list R) : M unit := fun w =>
  (Ok tt, World (next_handle w) (trace w) (<[l := a]> (heap w))).

(** The value [racf /= racf[0]] leaves in the array: [racf[0]] is read, as
    a number, before the division. *)
Definition normalize_acf (racf : list R) : result (list R) :=
  result_bind (index0 racf) (fun x0 => Ok (map (fun x => (x / x0)%R) racf)).

(** [racf /= racf[0]], in place. *)
Definition idiv_first (l : nat) : M unit :=
  racf ← load l;
  racf' ← lift (normalize_acf racf);
  store l racf'.

(** The loop of lines 126-130 and 142-146. *)
Definition acf_loop (ax : nat) (sc : scale) (time : list R)
    (normalize : bool) (racfs : list nat) : M unit :=
  for_enumerate 0 racfs (fun i l =>
    (if normalize then idiv_first l else mret tt);;
    if Nat.even i   (* just to make the graph less crowded *)
    then racf ← load l; ax_plot ax sc time (vec racf) plain;; mret tt
    else mret tt).

(** The part the three routines share after their loop. *)
Definition acf_frame (fig ax : nat) (time : list R) (ylabel time_units : string)
    (grid : bool) (fig_filename : string) : M unit :=
  emit (AxSetXlabel ax ("t [" ++ time_units ++ "]"));;
  emit (AxSetYlabel ax ylabel);;
  t0 ← lift (index0 time);
  t1 ← lift (index_last time);
  emit (PltXlim t0 t1);;
  emit (AxGrid ax grid None);;
  emit (AxTickParams ax 8);;
  emit (FigTightLayout fig);;
  emit (FigSavefig fig fig_filename false).

(** Lines 125-137. *)
Definition plot_rot_acfs_time (time : list R) (racfs : list nat)
    (time_units : string) (normalize grid : bool) (fig_filename : string)
  : M unit :=
  fa ← plt_subplots;
  acf_loop fa.2 Linear time normalize racfs;;
  acf_frame fa.1 fa.2 time "$\langle\Theta$(t)$\Theta$(0)$\rangle$"
    time_units grid fig_filename.

(** Lines 141-153. *)
Definition plot_force_acfs_time (time : list R) (facfs : list nat)
    (time_units : string) (normalize grid : bool) (fig_filename : string)
  : M unit :=
  fa ← plt_subplots;
  acf_loop fa.2 SemilogX time normalize facfs;;
  acf_frame fa.1 fa.2 time "$\langle\Delta$F(t)$\Delta$F(0)$\rangle$"
    time_units grid fig_filename.

(** Lines 157-167: no normalization. *)
Definition plot_int_acfs_time (time : list R) (int_facfs : list nat)
    (time_units : string) (grid : bool) (fig_filename : string) : M unit :=
  fa ← plt_subplots;
  acf_loop fa.2 LogLog time false int_facfs;;
  acf_frame fa.1 fa.2 time
    "$\int_0^t\langle\Delta$F(t')$\Delta$F(0)$\rangle$dt'"
    time_units grid fig_filename.

(** ** Symmetrization *)

(** Exact-index pairing on a mirrored grid of [n] points. *)
Definition paired (n i : nat) : nat := (n - 1 - i)%nat.

Definition Rleb (x y : R) : bool := if Rle_dec x y then true else false.

(** The axis is antisymmetric about zero within [tol]. *)
Definition mirrored_within (tol : R) (z : list R) : bool :=
  forallb (fun i =>
             Rleb (Rabs (nth i z 0%R + nth (paired (length z) i) z 0%R)) tol)
          (seq 0 (length z)).

(** Modelled from the spec: [symmetrize], which is not in
    [plotting.py]. Section 4.1: exact-index pairing; the new value is the
    average of the paired values, the new error the paired errors combined
    in quadrature and divided by two; the self-paired centre point is kept
    as it is; a [DomainError] when the axis is not symmetric within the
    tolerance. Section 7: a [ShapeError] when the lengths differ. *)
Definition symmetrize (tol : R) (z v e : list R) : result (list R * list R) :=
  let n := length z in
  if negb ((length v =? n)%nat && (length e =? n)%nat) then Raise ShapeError
  else if negb (mirrored_within tol z) then Raise DomainError
  else
    Ok (map (fun i =>
               let j := paired n i in
               if (i =? j)%nat then nth i v 0%R
               else ((nth i v 0 + nth j v 0) / 2)%R)
            (seq 0 n),
        map (fun i =>
               let j := paired n i in
               if (i =? j)%nat then nth i e 0%R
               else (sqrt (nth i e 0 * nth i e 0 + nth j e 0 * nth j e 0) / 2)%R)
            (seq 0 n)).

(** ** The coordinate axis in the words of the specification *)

(** [min(axis)] *)
Definition minimum (z : list R) : option R :=
  match z with
  | [] => None
  | x :: z' => Some (foldl Rmin x z')
  end.

(** The axis is ascending. *)
Definition ascending (z : list R) : Prop :=
  forall i j x y, (i <= j)%nat -> z !! i = Some x -> z !! j = Some y -> (x <= y)%R.

(** The two curves of a band are [v - e] and [v + e], whichever way round
    they were handed over. *)
Definition band_around (v e : list R) (y1 y2 : ndarray) : Prop :=
  (data y1 = zip_with Rplus v e /\ data y2 = zip_with Rminus v e) \/
  (data y1 = zip_with Rminus v e /\ data y2 = zip_with Rplus v e).

(** A sequence with every sample divided by its first sample. *)
Definition divided_by_first (racf : list R) : list R :=
  match racf with
  | [] => []
  | x0 :: _ => map (fun x => (x / x0)%R) racf
  end.

(** The calls of [plt.xlim] among the calls made. *)
Definition xlim_of (c : call) : option (R * R) :=
  match c with
  | PltXlim lo hi => Some (lo, hi)
  | _ => None
  end.

Definition xlim_calls (t : list call) : list (R * R) := omap xlim_of t.

(** The call completes, and [plt.xlim] is called in it once, with the
    limits [(lo, hi)]. *)
Definition sets_xlim {A} (m : M A) (lo hi : R) : Prop :=
  forall w, exists r w',
    m w = (Ok r, w') /\
    xlim_calls (trace w') = xlim_calls (trace w) ++ [(lo, hi)].

(** The routine does not end in the exception [e]. *)
Definition never_raises {A} (e : exn) (m : M A) : Prop :=
  forall w, (m w).1 <> Raise e.

(** The world of a fresh interpreter: nothing drawn, nothing shared. *)
Definition fresh : world := World 0 [] ∅.

(** ** What a run has drawn *)

(** The elements of a list whose position, counted from [i], is even:
    the ones the autocorrelation loops draw. *)
Fixpoint drawn_from {A} (i : nat) (l : list A) : list A :=
  match l with
  | [] => []
  | x :: l' =>
      if Nat.even i then x :: drawn_from (S i) l' else drawn_from (S i) l'
  end.

(** The curves handed to the plot family among the calls made. *)
Definition curve_of (c : call) : option ndarray :=
  match c with
  | AxPlot _ _ _ y _ => Some y
  | _ => None
  end.

Definition curves (t : list call) : list ndarray := omap curve_of t.

(** The bands handed to [fill_between] among the calls made: the two
    curves of each. *)
Definition band_of (c : call) : option (ndarray * ndarray) :=
  match c with
  | AxFillBetween _ _ y1 y2 _ _ _ => Some (y1, y2)
  | _ => None
  end.

Definition bands (t : list call) : list (ndarray * ndarray) := omap band_of t.

(** The routine writes no image file. *)
Definition quiet {A} (m : M A) : Prop :=
  forall w, saved (m w).2 = saved w.

(** The routine ends in an exception, whatever the world it starts in,
    and has written no image file by then. *)
Definition fails_unsaved {A} (m : M A) : Prop :=
  forall w, (exists e, (m w).1 = Raise e) /\ saved (m w).2 = saved w.

(** The routine completes; it writes its file when [sv] is set and no
    file otherwise; it hands back the figure and axis it was given, or
    the one figure it has opened when it was given none. *)
Definition saves_on_request (m : M (nat * nat)) (figax : option (nat * nat))
    (sv : bool) (file : string) : Prop :=
  forall w, exists fa w',
    m w = (Ok fa, w') /\
    saved w' = saved w ++ (if sv then [file] else []) /\
    match figax with
    | Some fa0 => fa = fa0 /\ next_handle w' = next_handle w
    | None => fa = (next_handle w, next_handle w) /\
              next_handle w' = S (next_handle w)
    end.

(** ** The time series of the forces *)

(** The buffer of [a.T], the array with its axes in reverse order: the
    transposed sub-arrays along the first axis, read element by element
    across the sub-arrays. *)
Fixpoint transpose_data (sh : list nat) (d : list R) : list R :=
  match sh with
  | [] => d
  | d0 :: rest =>
      let p := size_of rest in
      let subs := map (transpose_data rest) (chunks d0 p d) in
      concat (map (fun k => map (fun s => nth k s 0%R) subs) (seq 0 p))
  end.

(** [a.T] *)
Definition np_T (a : ndarray) : ndarray :=
  NdArray (rev (shape a)) (transpose_data (shape a) (data a)).

Section Timeseries.

(** The smoothing filter of [permeability.functions], which is not in
    this file: some function from a series, a window length and a
    polynomial order to a series or an exception. *)
Variable savitzky_golay : ndarray -> Z -> Z -> result ndarray.

(** Lines 110-121. *)
Definition plot_timeseries (time : list R) (forces : ndarray)
    (time_units force_units : string) (grid : bool) (fig_filename : string)
  : M unit :=
  fa ← plt_subplots;
  let fig := fa.1 in
  let ax := fa.2 in
  series ← lift (iterate (np_T forces));
  for_each series (fun force_series =>
    ax_plot ax Linear time force_series
      (LineStyle None None (Some 0%Z) None None);;
    smoothdata ← lift (savitzky_golay force_series 15001 3);
    ax_plot ax Linear time smoothdata plain;;
    mret tt);;
  emit (AxSetXlabel ax ("time [" ++ time_units ++ "]"));;
  emit (AxSetYlabel ax ("F_z(z) [" ++ force_units ++ "]"));;
  emit (AxGrid ax grid (Some "c"%string));;
  emit (AxTickParams ax 8);;
  emit (FigTightLayout fig);;
  emit (FigSavefig fig fig_filename false);;
  emit PltShow.

End Timeseries.

(** * Properties *)

(** ** Blocks of a buffer *)

Lemma chunks_length n p l : length (chunks n p l) = n.
Proof. revert l; induction n as [|n IH]; intros l; simpl; [done|]. by rewrite IH. Qed.

Lemma chunks_block_length n p l :
  length l = (n * p)%nat -> Forall (fun r => length r = p) (chunks n p l).
Proof.
  revert l; induction n as [|n IH]; intros l Hl; simpl; constructor.
  - rewrite length_take. lia.
  - apply IH. rewrite length_drop. lia.
Qed.

Lemma chunks_one p l : length l = p -> chunks 1 p l = [l].
Proof. intros <-. simpl. by rewrite firstn_all. Qed.

(** ** Sums along the first axis *)

Lemma foldl_vadd_length rows : forall acc,
  Forall (fun r => length r = length acc) rows ->
  length (foldl vadd acc rows) = length acc.
Proof.
  induction rows as [|r rows IH]; intros acc Hrows; simpl; [done|].
  inversion Hrows as [|? ? Hr Hrest]; subst.
  assert (Hlen : length (vadd acc r) = length acc).
  { unfold vadd. rewrite length_zip_with. lia. }
  rewrite IH; [done|]. by rewrite Hlen.
Qed.

Lemma foldl_vadd_lookup rows : forall acc j x,
  Forall (fun r => length r = length acc) rows ->
  acc !! j = Some x ->
  foldl vadd acc rows !! j
  = Some (x + Rsum (map (fun r => nth j r 0%R) rows))%R.
Proof.
  induction rows as [|r rows IH]; intros acc j x Hrows Hj; simpl.
  - rewrite Hj. f_equal. lra.
  - inversion Hrows as [|? ? Hr Hrest]; subst.
    assert (Hlen : length (vadd acc r) = length acc).
    { unfold vadd. rewrite length_zip_with. lia. }
    assert (Hjr : r !! j = Some (nth j r 0%R)).
    { apply lookup_lt_Some in Hj. rewrite nth_lookup.
      destruct (lookup_lt_is_Some_2 r j) as [y Hy]; [lia|]. by rewrite Hy. }
    rewrite (IH (vadd acc r) j (x + nth j r 0)%R).
    + f_equal. lra.
    + by rewrite Hlen.
    + unfold vadd. rewrite lookup_zip_with, Hj. simpl. by rewrite Hjr.
Qed.

Lemma sum_rows_length p rows :
  Forall (fun r => length r = p) rows -> length (sum_rows p rows) = p.
Proof.
  intros H. unfold sum_rows. rewrite foldl_vadd_length; rewrite length_replicate; done.
Qed.

Lemma sum_rows_lookup p rows j :
  Forall (fun r => length r = p) rows -> (j < p)%nat ->
  sum_rows p rows !! j = Some (Rsum (map (fun r => nth j r 0%R) rows)).
Proof.
  intros H Hj. unfold sum_rows.
  rewrite (foldl_vadd_lookup rows _ j 0%R).
  - f_equal. lra.
  - by rewrite length_replicate.
  - by apply lookup_replicate_2.
Qed.

(** ** Mean and standard error of a sweep matrix *)

Lemma nth_lookup_Some (r : list R) j :
  (j < length r)%nat -> r !! j = Some (nth j r 0%R).
Proof.
  intros Hj. rewrite nth_lookup.
  destruct (lookup_lt_is_Some_2 r j) as [y Hy]; [lia|]. by rewrite Hy.
Qed.

Lemma rows_of_matrix a n c :
  shape a = [n; c] -> rows_of a = chunks n c (data a).
Proof. intros Hs. unfold rows_of. rewrite Hs. simpl. by rewrite Nat.mul_1_r. Qed.

Lemma column_length a n c j :
  shape a = [n; c] -> length (column a j) = n.
Proof.
  intros Hs. unfold column. rewrite length_map, (rows_of_matrix a n c Hs).
  apply chunks_length.
Qed.

Lemma mean_matrix a n c :
  shape a = [n; c] ->
  ensemble_mean a
  = Ok (NdArray [c] (map (fun s => (s / INR n)%R) (sum_rows c (rows_of a)))).
Proof.
  intros Hs. rewrite (rows_of_matrix a n c Hs).
  unfold ensemble_mean, np_mean_axis0. rewrite Hs. simpl.
  by rewrite Nat.mul_1_r.
Qed.

Lemma std_err_matrix a n c :
  shape a = [n; c] ->
  ensemble_std_err a
  = Ok (NdArray [c]
          (map (fun s => (s / sqrt (INR n))%R)
             (map sqrt
                (map (fun s => (s / INR n)%R)
                   (sum_rows c
                      (map (fun r =>
                              map (fun d => (d * d)%R)
                                (vsub r (map (fun s => (s / INR n)%R)
                                           (sum_rows c (rows_of a)))))
                           (rows_of a))))))).
Proof.
  intros Hs. rewrite (rows_of_matrix a n c Hs).
  unfold ensemble_std_err, np_std_axis0, shape0. rewrite Hs. simpl.
  by rewrite Nat.mul_1_r.
Qed.

Lemma mean_lookup a n c j :
  shape a = [n; c] -> well_shaped a -> (j < c)%nat ->
  map (fun s => (s / INR n)%R) (sum_rows c (rows_of a)) !! j
  = Some (average (column a j)).
Proof.
  intros Hs Hw Hj.
  assert (Hrows : Forall (fun r => length r = c) (rows_of a)).
  { rewrite (rows_of_matrix a n c Hs). apply chunks_block_length.
    unfold well_shaped in Hw. rewrite Hw, Hs. simpl. lia. }
  rewrite list_lookup_fmap, (sum_rows_lookup c _ j Hrows Hj). simpl.
  unfold average. by rewrite (column_length a n c j Hs).
Qed.

Lemma squares_lookup a n c j :
  shape a = [n; c] -> well_shaped a -> (j < c)%nat ->
  sum_rows c
    (map (fun r =>
            map (fun d => (d * d)%R)
              (vsub r (map (fun s => (s / INR n)%R) (sum_rows c (rows_of a)))))
       (rows_of a)) !! j
  = Some (Rsum (map (fun x => ((x - average (column a j))
                               * (x - average (column a j)))%R)
                  (column a j))).
Proof.
  intros Hs Hw Hj.
  pose proof (mean_lookup a n c j Hs Hw Hj) as Hm.
  assert (Hrows : Forall (fun r => length r = c) (rows_of a)).
  { rewrite (rows_of_matrix a n c Hs). apply chunks_block_length.
    unfold well_shaped in Hw. rewrite Hw, Hs. simpl. lia. }
  set (arrmean := map (fun s => (s / INR n)%R) (sum_rows c (rows_of a))) in *.
  assert (Hlen : length arrmean = c).
  { unfold arrmean. rewrite length_map. by apply sum_rows_length. }
  rewrite sum_rows_lookup; [|
    apply Forall_fmap; eapply Forall_impl; [exact Hrows|];
    intros r Hr; simpl in Hr |- *; unfold vsub;
    rewrite length_map, length_zip_with; lia | exact Hj].
  f_equal. unfold column. rewrite !map_map. f_equal.
  apply Forall_fmap_ext_1. eapply Forall_impl; [exact Hrows|].
  intros r Hr. simpl in Hr |- *.
  assert (Hx : map (fun d => (d * d)%R) (vsub r arrmean) !! j
               = Some ((nth j r 0 - average (map (fun r0 => nth j r0 0%R) (rows_of a)))
                       * (nth j r 0 - average (map (fun r0 => nth j r0 0%R) (rows_of a))))%R).
  { rewrite list_lookup_fmap. unfold vsub.
    rewrite lookup_zip_with, (nth_lookup_Some r j) by lia. simpl.
    unfold column in Hm. by rewrite Hm. }
  rewrite nth_lookup, Hx. done.
Qed.

(** ** Running a routine *)

Lemma bind_ok {A B} (m : M A) (k : A -> M B) w a w' :
  m w = (Ok a, w') -> (m ≫= k) w = k a w'.
Proof. intros H. unfold mbind, M_bind. by rewrite H. Qed.

Lemma bind_raise {A B} (m : M A) (k : A -> M B) w e w' :
  m w = (Raise e, w') -> (m ≫= k) w = (Raise e, w').
Proof. intros H. unfold mbind, M_bind. by rewrite H. Qed.

Lemma ax_plot_ok ax sc x y st w :
  plot_args_ok x y = true ->
  ax_plot ax sc x y st w
  = (Ok (length (trace w)),
     World (next_handle w) (trace w ++ [AxPlot ax sc x y st]) (heap w)).
Proof. intros H. unfold ax_plot. by rewrite H. Qed.

Lemma ax_plot_raise ax sc x y st w :
  plot_args_ok x y = false -> ax_plot ax sc x y st w = (Raise ValueError, w).
Proof. intros H. unfold ax_plot. by rewrite H. Qed.

Lemma for_each_plot ax sc x st ys : forall w,
  Forall (fun y => plot_args_ok x y = true) ys ->
  for_each ys (fun y => ax_plot ax sc x y st;; mret tt) w
  = (Ok tt,
     World (next_handle w)
       (trace w ++ map (fun y => AxPlot ax sc x y st) ys) (heap w)).
Proof.
  induction ys as [|y ys IH]; intros w Hys; simpl.
  - rewrite app_nil_r. by destruct w.
  - inversion Hys as [|? ? Hy Hrest]; subst.
    erewrite bind_ok; [|erewrite bind_ok; [|by apply ax_plot_ok]; reflexivity].
    rewrite IH by done. simpl. by rewrite <- app_assoc.
Qed.

Lemma for_each_plot_raise ax sc x st y ys w :
  plot_args_ok x y = false ->
  for_each (y :: ys) (fun y => ax_plot ax sc x y st;; mret tt) w
  = (Raise ValueError, w).
Proof.
  intros Hy. simpl.
  erewrite bind_raise; [done|]. erewrite bind_raise; [done|].
  by apply ax_plot_raise.
Qed.

Lemma emit_run c w :
  emit c w = (Ok tt, World (next_handle w) (trace w ++ [c]) (heap w)).
Proof. reflexivity. Qed.

Lemma lift_run {A} (r : result A) w : lift r w = (r, w).
Proof. reflexivity. Qed.

Lemma ax_fill_between_ok ax x y1 y2 fc ec al w :
  fill_between_ok x y1 y2 = true ->
  ax_fill_between ax x y1 y2 fc ec al w
  = (Ok tt,
     World (next_handle w)
       (trace w ++ [AxFillBetween ax x y1 y2 fc ec al]) (heap w)).
Proof. intros H. unfold ax_fill_between. by rewrite H. Qed.

(** One step of a routine whose first action succeeds. *)
Ltac run_ok lem :=
  erewrite bind_ok; [|first [exact lem | apply lem | rewrite lem; reflexivity]];
  cbv beta; simpl fst; simpl snd; simpl next_handle; simpl trace; simpl heap.

(** The same, the step's side condition being closed by [tac]. *)
Ltac run_by lem tac :=
  erewrite bind_ok; [|apply lem; solve [tac]];
  cbv beta; simpl fst; simpl snd; simpl next_handle; simpl trace; simpl heap.

Lemma broadcastable_refl c : broadcastable c c = true.
Proof. unfold broadcastable. by rewrite Nat.eqb_refl. Qed.

Lemma iterate_matrix a n c :
  shape a = [n; c] ->
  iterate a = Ok (map (NdArray [c]) (rows_of a)).
Proof.
  intros Hs. rewrite (rows_of_matrix a n c Hs). unfold iterate. rewrite Hs.
  simpl. by rewrite Nat.mul_1_r.
Qed.

(** The calls every sweep routine ends with when it writes its file. *)
Lemma plot_sweeps_ok ylabel z forces file zu pm alpha grid w n c z0 :
  shape (normalize_to_matrix forces) = [n; c] ->
  length z = c -> index0 z = Ok z0 ->
  exists m s,
    ensemble_mean (normalize_to_matrix forces) = Ok m /\
    ensemble_std_err (normalize_to_matrix forces) = Ok s /\
    plot_sweeps ylabel z forces file zu pm alpha grid w
    = (Ok tt,
       World (S (next_handle w))
         (trace w ++
          PltSubplots (next_handle w) ::
          (if pm
           then [AxPlot (next_handle w) Linear z m plain;
                 AxFillBetween (next_handle w) z (nd_add m s) (nd_sub m s)
                   (Named "#a8a8a8") (Named "#a8a8a8") None]
           else []) ++
          map (fun y => AxPlot (next_handle w) Linear z y
                          (LineStyle None (Some alpha) (Some 0%Z) None None))
              (map (NdArray [c]) (rows_of (normalize_to_matrix forces))) ++
          [AxSetXlabel (next_handle w) ("z [" ++ zu ++ "]");
           AxSetYlabel (next_handle w) ylabel;
           AxGrid (next_handle w) grid None;
           PltXlim z0 (- z0);
           AxTickParams (next_handle w) 8;
           FigTightLayout (next_handle w);
           FigSavefig (next_handle w) file false;
           PltShow])
         (heap w)).
Proof.
  intros Hs Hz Hz0.
  set (F := normalize_to_matrix forces) in *.
  pose (m := NdArray [c] (map (fun s => (s / INR n)%R) (sum_rows c (rows_of F)))).
  assert (Hm : ensemble_mean F = Ok m) by apply (mean_matrix _ n c Hs).
  destruct (ensemble_std_err F) as [s|] eqn:Hse;
    [|by rewrite (std_err_matrix _ n c Hs) in Hse].
  assert (Hss : shape s = [c]).
  { rewrite (std_err_matrix _ n c Hs) in Hse. by inversion Hse. }
  pose proof (iterate_matrix _ n c Hs) as Hit.
  exists m, s. split; [exact Hm|]. split; [reflexivity|].
  unfold plot_sweeps. fold F.
  run_ok (eq_refl : plt_subplots w = _).
  assert (Hargs : forall y, shape y = [c] -> plot_args_ok z y = true).
  { intros y Hy. unfold plot_args_ok, first_dim, ndim. rewrite Hy. simpl.
    by rewrite Hz, Nat.eqb_refl. }
  assert (Hfill : forall y1 y2, shape y1 = [c] -> shape y2 = [c] ->
             fill_between_ok z y1 y2 = true).
  { intros y1 y2 Hy1 Hy2. unfold fill_between_ok, first_dim, ndim.
    rewrite Hy1, Hy2. simpl. by rewrite Hz, broadcastable_refl. }
  rewrite Hm, Hse, Hit.
  set (h := next_handle w).
  erewrite (bind_ok _ _ _ tt
              (World (S h)
                 ((trace w ++ [PltSubplots h]) ++
                  (if pm
                   then [AxPlot h Linear z m plain;
                         AxFillBetween h z (nd_add m s) (nd_sub m s)
                           (Named "#a8a8a8") (Named "#a8a8a8") None]
                   else []))
                 (heap w))).
  2:{ destruct pm.
      - run_ok (lift_run (A:=ndarray)).
        run_by ax_plot_ok ltac:(by apply Hargs).
        run_ok (lift_run (A:=ndarray)).
        rewrite ax_fill_between_ok by (by apply Hfill). simpl.
        by rewrite <- !app_assoc.
      - rewrite app_nil_r. reflexivity. }
  run_ok (lift_run (A:=list ndarray)).
  erewrite bind_ok.
  2:{ apply for_each_plot. apply Forall_fmap, Forall_true. intros r.
      by apply Hargs. }
  simpl next_handle; simpl trace; simpl heap.
  repeat (run_ok emit_run). rewrite Hz0. run_ok (lift_run (A:=R)).
  repeat (run_ok emit_run). rewrite emit_run. simpl.
  f_equal. f_equal. destruct pm; simpl; rewrite <- ?app_assoc; simpl; reflexivity.
Qed.

Lemma figure_and_axis_run figax w :
  exists fa w1,
    figure_and_axis figax w = (Ok fa, w1) /\
    heap w1 = heap w /\
    exists pre, trace w1 = trace w ++ pre /\
                forall c, In c pre -> c = PltSubplots (next_handle w).
Proof.
  destruct figax as [fa|]; simpl.
  - exists fa, w. repeat split. exists []. rewrite app_nil_r. by split.
  - eexists _, _. split; [reflexivity|]. split; [reflexivity|].
    eexists. split; [reflexivity|]. intros c [<-|[]]. reflexivity.
Qed.

Lemma legend_if_run b ax w :
  legend_if b ax w
  = (Ok tt,
     World (next_handle w) (trace w ++ (if b then [AxLegend ax] else []))
       (heap w)).
Proof.
  destruct b; simpl; [reflexivity|]. rewrite app_nil_r. by destruct w.
Qed.

Lemma save_if_run sv fig file w :
  (if sv : bool
   then emit (FigTightLayout fig);; emit (FigSavefig fig file true)
   else mret tt) w
  = (Ok tt,
     World (next_handle w)
       (trace w ++
        (if sv then [FigTightLayout fig; FigSavefig fig file true] else []))
       (heap w)).
Proof.
  destruct sv.
  - run_ok emit_run. rewrite emit_run. simpl. by rewrite <- app_assoc.
  - rewrite app_nil_r. by destruct w.
Qed.

Lemma plot_resistance_z_ok z resist zu ru file grid sys figax alpha sv lg
    w n c z0 fa w1 :
  shape resist = [n; c] -> length z = c -> index0 z = Ok z0 ->
  figure_and_axis figax w = (Ok fa, w1) ->
  exists m s,
    ensemble_mean resist = Ok m /\
    ensemble_std_err resist = Ok s /\
    plot_resistance_z z resist zu ru file grid sys figax alpha sv lg w
    = (Ok fa,
       World (next_handle w1)
         (trace w1 ++
          [AxPlot fa.2 SemilogY z m (LineStyle sys None None None None);
           AxFillBetween fa.2 z (nd_add m s) (nd_sub m s)
             (Named "#a8a8a8") (Named "#a8a8a8") None] ++
          map (fun y => AxPlot fa.2 SemilogY z y
                          (LineStyle None (Some alpha) (Some 0%Z) None None))
              (map (NdArray [c]) (rows_of resist)) ++
          [AxSetXlabel fa.2 ("z [" ++ zu ++ "]");
           AxSetYlabel fa.2 ("R(z) [" ++ ru ++ "]");
           AxGrid fa.2 grid None;
           PltXlim z0 (- z0);
           AxTickParams fa.2 8] ++
          (if lg then [AxLegend fa.2] else []) ++
          (if sv then [FigTightLayout fa.1; FigSavefig fa.1 file true]
           else []))
         (heap w1)).
Proof.
  intros Hs Hz Hz0 Hfig.
  pose (m := NdArray [c] (map (fun s => (s / INR n)%R)
                            (sum_rows c (rows_of resist)))).
  assert (Hm : ensemble_mean resist = Ok m) by apply (mean_matrix _ n c Hs).
  destruct (ensemble_std_err resist) as [s|] eqn:Hse;
    [|by rewrite (std_err_matrix _ n c Hs) in Hse].
  assert (Hss : shape s = [c]).
  { rewrite (std_err_matrix _ n c Hs) in Hse. by inversion Hse. }
  pose proof (iterate_matrix _ n c Hs) as Hit.
  exists m, s. split; [exact Hm|]. split; [reflexivity|].
  assert (Hargs : forall y, shape y = [c] -> plot_args_ok z y = true).
  { intros y Hy. unfold plot_args_ok, first_dim, ndim. rewrite Hy. simpl.
    by rewrite Hz, Nat.eqb_refl. }
  assert (Hfill : forall y1 y2, shape y1 = [c] -> shape y2 = [c] ->
             fill_between_ok z y1 y2 = true).
  { intros y1 y2 Hy1 Hy2. unfold fill_between_ok, first_dim, ndim.
    rewrite Hy1, Hy2. simpl. by rewrite Hz, broadcastable_refl. }
  unfold plot_resistance_z.
  run_ok Hfig. rewrite Hm, Hse, Hit.
  run_ok (lift_run (A:=ndarray)). run_ok (lift_run (A:=ndarray)).
  run_by ax_plot_ok ltac:(by apply Hargs).
  run_by ax_fill_between_ok ltac:(by apply Hfill).
  run_ok (lift_run (A:=list ndarray)).
  erewrite bind_ok.
  2:{ apply for_each_plot. apply Forall_fmap, Forall_true. intros r.
      by apply Hargs. }
  simpl next_handle; simpl trace; simpl heap.
  repeat (run_ok emit_run). rewrite Hz0. run_ok (lift_run (A:=R)).
  repeat (run_ok emit_run). run_ok legend_if_run.
  run_ok save_if_run.
  unfold mret, M_ret. destruct fa as [fig ax]. simpl.
  rewrite <- !app_assoc. reflexivity.
Qed.

Lemma normalize_matrix_id a n c :
  shape a = [n; c] -> normalize_to_matrix a = a.
Proof. intros Hs. unfold normalize_to_matrix, ndim. by rewrite Hs. Qed.

Lemma index0_nonempty (z : list R) :
  (0 < length z)%nat -> exists z0, index0 z = Ok z0.
Proof. destruct z as [|z0 z]; simpl; [lia|]. by exists z0. Qed.

Lemma sqrt_one_over_two :
  (sqrt ((0 + (1 - (0 + 1 + 3) / (1 + 1)) * (1 - (0 + 1 + 3) / (1 + 1))
            + (3 - (0 + 1 + 3) / (1 + 1)) * (3 - (0 + 1 + 3) / (1 + 1)))
         / (1 + 1)) / sqrt (1 + 1) = 1 / sqrt 2)%R.
Proof.
  replace ((0 + (1 - (0 + 1 + 3) / (1 + 1)) * (1 - (0 + 1 + 3) / (1 + 1))
            + (3 - (0 + 1 + 3) / (1 + 1)) * (3 - (0 + 1 + 3) / (1 + 1)))
           / (1 + 1))%R with 1%R by lra.
  rewrite sqrt_1. by replace (1 + 1)%R with 2%R by lra.
Qed.

Lemma cons_eq (x y : R) (l k : list R) : x = y -> l = k -> x :: l = y :: k.
Proof. by intros -> ->. Qed.

(** C1. For a sweep matrix of [n > 1] rows and [c] columns the sweep
    routines compute, for every column [j], the mean of the column and,
    as its standard error, the population standard deviation of the column
    over [sqrt n]; [plot_forces], [plot_free_energy_z] and
    [plot_resistance_z] draw that mean and the band of that standard
    error around it. For the sweep matrix [[1,2,3],[3,2,1]] the mean is
    [2,2,2] and the standard error [1/sqrt 2, 0, 1/sqrt 2]. *)
Theorem standard_error_of_sweeps (a : ndarray) (n c : nat) :
  shape a = [n; c] -> well_shaped a -> (1 < n)%nat ->
  (exists m s,
     ensemble_mean a = Ok m /\ ensemble_std_err a = Ok s /\
     (forall j, (j < c)%nat ->
        data m !! j = Some (average (column a j)) /\
        data s !! j
        = Some (population_std (column a j) / sqrt (INR n))%R) /\
     (forall z file zu yu alpha grid w,
        length z = c -> (0 < c)%nat ->
        exists w1 w2,
          plot_forces z a file zu yu true alpha grid w = (Ok tt, w1) /\
          plot_free_energy_z z a file zu yu true alpha grid w = (Ok tt, w2) /\
          forall w', w' = w1 \/ w' = w2 ->
            In (AxPlot (next_handle w) Linear z m plain) (trace w') /\
            In (AxFillBetween (next_handle w) z (nd_add m s) (nd_sub m s)
                  (Named "#a8a8a8") (Named "#a8a8a8") None) (trace w')) /\
     (forall z zu ru file grid sys figax alpha sv lg w,
        length z = c -> (0 < c)%nat ->
        exists fa w',
          plot_resistance_z z a zu ru file grid sys figax alpha sv lg w
          = (Ok fa, w') /\
          In (AxPlot fa.2 SemilogY z m (LineStyle sys None None None None))
             (trace w') /\
          In (AxFillBetween fa.2 z (nd_add m s) (nd_sub m s)
                (Named "#a8a8a8") (Named "#a8a8a8") None) (trace w'))) /\
  ensemble_mean (NdArray [2; 3]%nat [1; 2; 3; 3; 2; 1]%R)
  = Ok (vec [2; 2; 2]%R) /\
  ensemble_std_err (NdArray [2; 3]%nat [1; 2; 3; 3; 2; 1]%R)
  = Ok (vec [1 / sqrt 2; 0; 1 / sqrt 2]%R).
Proof.
  intros Hs Hw Hn. split; [|split].
  - pose (m := NdArray [c] (map (fun s => (s / INR n)%R)
                              (sum_rows c (rows_of a)))).
    assert (Hm : ensemble_mean a = Ok m) by apply (mean_matrix _ n c Hs).
    pose proof (std_err_matrix _ n c Hs) as Hse.
    match type of Hse with _ = Ok ?t => set (s := t) in Hse end.
    exists m, s. split; [exact Hm|]. split; [exact Hse|]. split; [|split].
    + intros j Hj. split.
      * apply (mean_lookup a n c j Hs Hw Hj).
      * simpl. rewrite !list_lookup_fmap.
        rewrite (squares_lookup a n c j Hs Hw Hj). simpl.
        unfold population_std. by rewrite (column_length a n c j Hs).
    + intros z file zu yu alpha grid w Hz Hc.
      destruct (index0_nonempty z) as [z0 Hz0]; [lia|].
      assert (HsN : shape (normalize_to_matrix a) = [n; c])
        by (by rewrite (normalize_matrix_id a n c Hs)).
      unfold plot_forces, plot_free_energy_z.
      destruct (plot_sweeps_ok ("F(z) [" ++ yu ++ "]") z a file zu true alpha
                  grid w n c z0 HsN Hz Hz0) as (m1 & s1 & Hm1 & Hs1 & Hrun1).
      destruct (plot_sweeps_ok ("ΔG(z) [" ++ yu ++ "]") z a file zu true alpha
                  grid w n c z0 HsN Hz Hz0) as (m2 & s2 & Hm2 & Hs2 & Hrun2).
      rewrite (normalize_matrix_id a n c Hs) in *.
      rewrite Hm in Hm1, Hm2. rewrite Hse in Hs1, Hs2.
      injection Hm1 as <-. injection Hs1 as <-.
      injection Hm2 as <-. injection Hs2 as <-.
      eexists _, _. split; [exact Hrun1|]. split.
      * rewrite Hrun2. reflexivity.
      * intros w' [-> | ->]; simpl; rewrite !in_app_iff; simpl; auto 10.
    + intros z zu ru file grid sys figax alpha sv lg w Hz Hc.
      destruct (index0_nonempty z) as [z0 Hz0]; [lia|].
      destruct (figure_and_axis_run figax w) as (fa & w1 & Hfig & _).
      destruct (plot_resistance_z_ok z a zu ru file grid sys figax alpha sv lg
                  w n c z0 fa w1 Hs Hz Hz0 Hfig) as (m1 & s1 & Hm1 & Hs1 & Hrun).
      rewrite Hm in Hm1. rewrite Hse in Hs1.
      injection Hm1 as <-. injection Hs1 as <-.
      exists fa. eexists. split; [exact Hrun|].
      simpl; rewrite !in_app_iff; simpl; auto 10.
  - unfold ensemble_mean, np_mean_axis0, vec. simpl.
    do 2 f_equal. repeat (apply cons_eq; [lra|]). reflexivity.
  - unfold ensemble_std_err, np_std_axis0, vec. simpl.
    unfold nd_div_scalar. simpl. do 2 f_equal.
    apply cons_eq; [apply sqrt_one_over_two|].
    apply cons_eq.
    { match goal with |- (sqrt ?x / _ = _)%R =>
        replace x with 0%R by lra end.
      rewrite sqrt_0. lra. }
    apply cons_eq; [|reflexivity].
    match goal with |- (sqrt ?x / sqrt ?y = _)%R =>
      replace x with 1%R by lra; replace y with 2%R by lra end.
    by rewrite sqrt_1.
Qed.

Lemma standard_error_of_sweeps_witness :
  exists m s,
    ensemble_mean (NdArray [2; 3]%nat [1; 2; 3; 3; 2; 1]%R) = Ok m /\
    ensemble_std_err (NdArray [2; 3]%nat [1; 2; 3; 3; 2; 1]%R) = Ok s /\
    data s !! 0%nat
    = Some (population_std
              (column (NdArray [2; 3]%nat [1; 2; 3; 3; 2; 1]%R) 0)
            / sqrt (INR 2))%R.
Proof.
  destruct (standard_error_of_sweeps
              (NdArray [2; 3]%nat [1; 2; 3; 3; 2; 1]%R) 2 3)
    as [(m & s & Hm & Hs & Hcols & _) _].
  - reflexivity.
  - reflexivity.
  - lia.
  - exists m, s. split; [exact Hm|]. split; [exact Hs|].
    apply (Hcols 0%nat). lia.
Defined.

(** ** One sweep *)

Lemma normalize_vector a N :
  shape a = [N] -> normalize_to_matrix a = NdArray [1%nat; length (data a)] (data a).
Proof. intros Hs. unfold normalize_to_matrix, ndim. by rewrite Hs. Qed.

Lemma normalize_other_rank a :
  ndim a <> 1%nat -> normalize_to_matrix a = a.
Proof.
  intros Hn. unfold normalize_to_matrix.
  by destruct (Nat.eqb_spec (ndim a) 1).
Qed.

Lemma normalize_idempotent a :
  normalize_to_matrix (normalize_to_matrix a) = normalize_to_matrix a.
Proof.
  unfold normalize_to_matrix at 2 3.
  destruct (Nat.eqb_spec (ndim a) 1); apply normalize_other_rank; [|done].
  unfold ndim. simpl. lia.
Qed.

Lemma mean_of_one_row (d : list R) :
  map (fun s => (s / INR 1)%R) (vadd (replicate (length d) 0%R) d) = d.
Proof.
  induction d as [|x d IH]; simpl; [done|].
  apply cons_eq; [lra|]. exact IH.
Qed.

Lemma std_err_of_one_row (d : list R) :
  map (fun s => (s / sqrt (INR 1))%R)
    (map sqrt
       (map (fun s => (s / INR 1)%R)
          (vadd (replicate (length d) 0%R)
             (map (fun x => (x * x)%R) (vsub d d)))))
  = replicate (length d) 0%R.
Proof.
  induction d as [|x d IH]; simpl; [done|].
  apply cons_eq; [|exact IH].
  replace ((0 + (x - x) * (x - x)) / 1)%R with 0%R by lra.
  rewrite sqrt_0, sqrt_1. lra.
Qed.

(** C3. For a measurement of one sweep, handed in as a 1-D sequence or as
    a matrix of one row, the mean the sweep routines compute is that row
    unchanged and the standard error is zero at every position. *)
Theorem single_sweep_statistics (forces : ndarray) (N : nat) :
  shape forces = [N] \/ shape forces = [1%nat; N] ->
  well_shaped forces ->
  ensemble_mean (normalize_to_matrix forces) = Ok (vec (data forces)) /\
  ensemble_std_err (normalize_to_matrix forces)
  = Ok (vec (replicate N 0%R)).
Proof.
  intros Hshape Hw.
  assert (Hlen : length (data forces) = N).
  { unfold well_shaped in Hw. destruct Hshape as [Hs|Hs];
      rewrite Hs in Hw; simpl in Hw; lia. }
  assert (HF : normalize_to_matrix forces = NdArray [1%nat; N] (data forces)).
  { destruct Hshape as [Hs|Hs].
    - by rewrite (normalize_vector _ N Hs), Hlen.
    - rewrite (normalize_matrix_id _ 1 N Hs). destruct forces as [sh d].
      simpl in *. by subst. }
  rewrite HF. clear HF Hshape Hw. subst N.
  set (d := data forces).
  assert (Hrows : rows_of (NdArray [1%nat; length d] d) = [d]).
  { rewrite (rows_of_matrix _ 1 (length d)) by done. by apply chunks_one. }
  split.
  - rewrite (mean_matrix _ 1 (length d)) by done. rewrite Hrows.
    unfold sum_rows, vec. simpl foldl. by rewrite mean_of_one_row.
  - rewrite (std_err_matrix _ 1 (length d)) by done. rewrite Hrows.
    unfold sum_rows, vec. simpl foldl. simpl map at 4.
    rewrite mean_of_one_row. simpl foldl.
    by rewrite std_err_of_one_row, length_replicate.
Qed.

Lemma single_sweep_statistics_witness :
  ensemble_mean (normalize_to_matrix (vec [1; 2; 3]%R)) = Ok (vec [1; 2; 3]%R) /\
  ensemble_std_err (normalize_to_matrix (vec [1; 2; 3]%R))
  = Ok (vec [0; 0; 0]%R).
Proof.
  apply (single_sweep_statistics (vec [1; 2; 3]%R) 3).
  - left. reflexivity.
  - reflexivity.
Defined.

(** C4. [plot_forces] and [plot_free_energy_z] turn a 1-D sequence into a
    matrix of one row before they compute a statistic; [plot_resistance_z]
    does not: for the 1-D sequence [1,2,3] it takes the mean over the
    three windows, the number 2, where the other two routines take the
    row [1,2,3], and its first plot call is then refused. *)
Theorem resistance_skips_normalization :
  normalize_to_matrix (vec [1; 2; 3]%R) = NdArray [1; 3]%nat [1; 2; 3]%R /\
  ensemble_mean (normalize_to_matrix (vec [1; 2; 3]%R))
  = Ok (vec [1; 2; 3]%R) /\
  ensemble_mean (vec [1; 2; 3]%R) = Ok (scalar 2) /\
  (plot_forces [-1; 0; 1]%R (vec [1; 2; 3]%R) "forces.pdf" "A" "kcal/mol-A"
     true 0.5%R true fresh).1 = Ok tt /\
  (plot_resistance_z [-1; 0; 1]%R (vec [1; 2; 3]%R) "A" "s/cm2" "res_z.pdf"
     true None None 0.5%R true false fresh).1 = Raise ValueError.
Proof.
  split; [reflexivity|]. split; [|split; [|split]].
  - unfold ensemble_mean, np_mean_axis0, vec. simpl.
    do 2 f_equal. repeat (apply cons_eq; [lra|]). reflexivity.
  - unfold ensemble_mean, np_mean_axis0, scalar. simpl.
    do 2 f_equal. apply cons_eq; [lra|reflexivity].
  - unfold plot_forces.
    destruct (plot_sweeps_ok ("F(z) [" ++ "kcal/mol-A" ++ "]") [-1; 0; 1]%R
                (vec [1; 2; 3]%R) "forces.pdf" "A" true 0.5%R true fresh
                1 3 (-1)%R eq_refl eq_refl eq_refl) as (m & s & _ & _ & Hrun).
    by rewrite Hrun.
  - reflexivity.
Qed.

(** ** Normalization of an autocorrelation sequence *)

Lemma idiv_first_run l racf racf' w :
  heap w !! l = Some racf -> normalize_acf racf = Ok racf' ->
  idiv_first l w
  = (Ok tt, World (next_handle w) (trace w) (<[l := racf']> (heap w))).
Proof.
  intros Hl Hn. unfold idiv_first.
  erewrite bind_ok; [|unfold load; by rewrite Hl].
  rewrite Hn. run_ok (lift_run (A:=list R)). reflexivity.
Qed.

(** C5. [racf /= racf[0]] divides every sample of the sequence by its
    first sample, in the caller's array; when that sample is not zero the
    first sample of the result is 1. [4, 2, 1, 0.5] becomes
    [1, 0.5, 0.25, 0.125]. *)
Theorem acf_normalization (x0 : R) (rest : list R) :
  x0 <> 0%R ->
  normalize_acf (x0 :: rest) = Ok (1%R :: map (fun x => (x / x0)%R) rest) /\
  (forall i x, (x0 :: rest) !! i = Some x ->
     (1%R :: map (fun x => (x / x0)%R) rest) !! i = Some (x / x0)%R) /\
  (forall l w, heap w !! l = Some (x0 :: rest) ->
     idiv_first l w
     = (Ok tt,
        World (next_handle w) (trace w)
          (<[l := 1%R :: map (fun x => (x / x0)%R) rest]> (heap w)))) /\
  normalize_acf [4; 2; 1; 0.5]%R = Ok [1; 0.5; 0.25; 0.125]%R.
Proof.
  intros Hx0.
  assert (Hn : normalize_acf (x0 :: rest)
               = Ok (1%R :: map (fun x => (x / x0)%R) rest)).
  { unfold normalize_acf. simpl. do 2 f_equal. by field. }
  split; [exact Hn|]. split; [|split].
  - intros [|i] x Hi; simpl in Hi |- *.
    + injection Hi as <-. f_equal. by field.
    + by rewrite list_lookup_fmap, Hi.
  - intros l w Hl. by apply (idiv_first_run l (x0 :: rest)).
  - unfold normalize_acf. simpl. f_equal.
    repeat (apply cons_eq; [lra|]). reflexivity.
Qed.

Lemma acf_normalization_witness :
  normalize_acf [2; 1]%R = Ok (1%R :: map (fun x => (x / 2)%R) [1%R]).
Proof.
  apply (acf_normalization 2 [1%R]). lra.
Defined.

(** ** Symmetrization *)

Lemma Rleb_true x y : (x <= y)%R -> Rleb x y = true.
Proof. intros H. unfold Rleb. by destruct (Rle_dec x y). Qed.

Lemma mirrored_exactly tol (z : list R) :
  (0 <= tol)%R ->
  (forall i zi, z !! i = Some zi ->
     z !! paired (length z) i = Some (- zi)%R) ->
  mirrored_within tol z = true.
Proof.
  intros Htol Hz. unfold mirrored_within. apply forallb_forall.
  intros i Hi. apply in_seq in Hi.
  destruct (lookup_lt_is_Some_2 z i) as [zi Hzi]; [lia|].
  rewrite !nth_lookup, (Hz i zi Hzi), Hzi. simpl.
  apply Rleb_true. replace (zi + - zi)%R with 0%R by lra.
  by rewrite Rabs_R0.
Qed.

Lemma lookup_map_seq {A} (f : nat -> A) n i :
  (i < n)%nat -> map f (seq 0 n) !! i = Some (f i).
Proof.
  intros Hi. rewrite list_lookup_fmap.
  by rewrite lookup_seq_lt by done.
Qed.

(** C2. On an axis mirrored about zero, symmetrization pairs index [i]
    with the index [n-1-i], whose coordinate is the opposite of the
    coordinate of [i]; a paired value becomes the average of the two
    values, a paired error the two errors combined in quadrature and
    divided by two, and the self-paired centre point, whose coordinate is
    zero, keeps its value and its error. For the axis [-10,-5,0,5,10] and
    the values [1,2,3,4,5], index 0 is paired with 4 and 1 with 3, and the
    values become [3,3,3,3,3]. *)
Theorem symmetrize_pairs_and_averages (tol : R) (z v e : list R) :
  length v = length z -> length e = length z -> (0 <= tol)%R ->
  (forall i zi, z !! i = Some zi ->
     z !! paired (length z) i = Some (- zi)%R) ->
  (exists v' e',
     symmetrize tol z v e = Ok (v', e') /\
     length v' = length z /\ length e' = length z /\
     (forall i vi vj ei ej,
        i <> paired (length z) i ->
        v !! i = Some vi -> v !! paired (length z) i = Some vj ->
        e !! i = Some ei -> e !! paired (length z) i = Some ej ->
        v' !! i = Some ((vi + vj) / 2)%R /\
        e' !! i = Some (sqrt (ei * ei + ej * ej) / 2)%R) /\
     (forall i zi,
        i = paired (length z) i -> z !! i = Some zi ->
        zi = 0%R /\ v' !! i = v !! i /\ e' !! i = e !! i)) /\
  paired 5 0 = 4%nat /\ paired 5 1 = 3%nat /\
  (forall e5, length e5 = 5%nat ->
     exists e', symmetrize 0 [-10; -5; 0; 5; 10]%R [1; 2; 3; 4; 5]%R e5
                = Ok ([3; 3; 3; 3; 3]%R, e')).
Proof.
  intros Hv He Htol Hz. split; [|split; [reflexivity|split; [reflexivity|]]].
  - eexists _, _. split; [|split; [|split; [|split]]].
    + unfold symmetrize. rewrite Hv, He, Nat.eqb_refl.
      rewrite (mirrored_exactly tol z Htol Hz). simpl. reflexivity.
    + by rewrite length_map, length_seq.
    + by rewrite length_map, length_seq.
    + intros i vi vj ei ej Hij Hvi Hvj Hei Hej.
      assert (Hi : (i < length z)%nat).
      { apply lookup_lt_Some in Hvi. lia. }
      rewrite !lookup_map_seq by done. simpl.
      destruct (Nat.eqb_spec i (paired (length z) i)) as [Heq|_]; [done|].
      by rewrite !nth_lookup, Hvi, Hvj, Hei, Hej.
    + intros i zi Hij Hzi.
      assert (Hi : (i < length z)%nat) by (by apply lookup_lt_Some in Hzi).
      split.
      * pose proof (Hz i zi Hzi) as Hp. rewrite <- Hij, Hzi in Hp.
        injection Hp as Hp. lra.
      * rewrite !lookup_map_seq by done. simpl.
        destruct (Nat.eqb_spec i (paired (length z) i)) as [_|Hne]; [|done].
        split; symmetry; apply nth_lookup_Some; lia.
  - intros e5 He5. eexists. unfold symmetrize. rewrite He5. simpl.
    assert (Hm : mirrored_within 0 [-10; -5; 0; 5; 10]%R = true).
    { apply mirrored_exactly; [lra|].
      intros [|[|[|[|[|i]]]]] zi Hi; simpl in Hi; try done;
        injection Hi as <-; simpl; f_equal; lra. }
    rewrite Hm. simpl. do 2 f_equal.
    repeat (apply cons_eq; [lra|]). reflexivity.
Qed.

Lemma symmetrize_pairs_and_averages_witness :
  exists v' e',
    symmetrize 0 [-1; 0; 1]%R [2; 5; 4]%R [0; 0; 0]%R = Ok (v', e') /\
    v' !! 0%nat = Some ((2 + 4) / 2)%R.
Proof.
  destruct (symmetrize_pairs_and_averages 0 [-1; 0; 1]%R [2; 5; 4]%R
              [0; 0; 0]%R)
    as [(v' & e' & Hrun & _ & _ & Hpair & _) _].
  - reflexivity.
  - reflexivity.
  - lra.
  - intros [|[|[|i]]] zi Hi; simpl in Hi; try done;
      injection Hi as <-; simpl; f_equal; lra.
  - exists v', e'. split; [exact Hrun|].
    apply (Hpair 0%nat 2%R 4%R 0%R 0%R); [by compute| | | |]; reflexivity.
Defined.

(** ** The autocorrelation loop *)

Lemma divided_by_first_length racf :
  length (divided_by_first racf) = length racf.
Proof. destruct racf; simpl; [done|]. by rewrite length_map. Qed.

Lemma divided_by_first_idempotent x0 rest :
  x0 <> 0%R ->
  divided_by_first (divided_by_first (x0 :: rest))
  = divided_by_first (x0 :: rest).
Proof.
  intros Hx0. simpl. apply cons_eq; [by field|].
  rewrite map_map. apply map_ext. intros x. by field.
Qed.

Lemma normalize_acf_divided x0 rest :
  x0 <> 0%R ->
  normalize_acf (divided_by_first (x0 :: rest))
  = Ok (divided_by_first (x0 :: rest)).
Proof.
  intros Hx0. rewrite <- (divided_by_first_idempotent x0 rest Hx0) at 2.
  reflexivity.
Qed.

Lemma load_run l racf w : heap w !! l = Some racf -> load l w = (Ok racf, w).
Proof. intros H. unfold load. by rewrite H. Qed.

Lemma plot_args_ok_vec (x y : list R) :
  length y = length x -> plot_args_ok x (vec y) = true.
Proof.
  intros H. unfold plot_args_ok, first_dim, ndim, vec. simpl.
  by rewrite H, Nat.eqb_refl.
Qed.

(** The heap after the references in [done] have been normalized. *)
Lemma acf_loop_normalizes ax sc time (H0 : gmap nat (list R)) ls :
  forall i done w,
  (forall l, In l ls ->
     exists x0 rest, H0 !! l = Some (x0 :: rest) /\ x0 <> 0%R /\
                     length (x0 :: rest) = length time) ->
  (forall l, heap w !! l
             = if decide (l ∈ done) then divided_by_first <$> H0 !! l
               else H0 !! l) ->
  exists w',
    for_enumerate i ls (fun i l =>
      idiv_first l;;
      if Nat.even i
      then racf ← load l; ax_plot ax sc time (vec racf) plain;; mret tt
      else mret tt) w = (Ok tt, w') /\
    next_handle w' = next_handle w /\
    saved w' = saved w /\ xlim_calls (trace w') = xlim_calls (trace w) /\
    (forall l, heap w' !! l
               = if decide (l ∈ ls ++ done) then divided_by_first <$> H0 !! l
                 else H0 !! l).
Proof.
  induction ls as [|l ls IH]; intros i done w Hls Hinv.
  - exists w. simpl. repeat split; done.
  - destruct (Hls l (or_introl eq_refl)) as (x0 & rest & Hl0 & Hx0 & Hlen).
    set (d := divided_by_first (x0 :: rest)).
    assert (Hstep : idiv_first l w
                    = (Ok tt, World (next_handle w) (trace w)
                                (<[l := d]> (heap w)))).
    { pose proof (Hinv l) as Hl. rewrite Hl0 in Hl.
      destruct (decide (l ∈ done)).
      - eapply idiv_first_run; [exact Hl|].
        by apply normalize_acf_divided.
      - eapply idiv_first_run; [exact Hl|]. reflexivity. }
    assert (Hd : length d = length time).
    { unfold d. by rewrite divided_by_first_length. }
    set (w1 := World (next_handle w) (trace w) (<[l := d]> (heap w))).
    assert (Hbody : exists w2,
      (idiv_first l;;
       if Nat.even i
       then racf ← load l; ax_plot ax sc time (vec racf) plain;; mret tt
       else mret tt) w = (Ok tt, w2) /\
      next_handle w2 = next_handle w /\ saved w2 = saved w /\
      xlim_calls (trace w2) = xlim_calls (trace w) /\
      heap w2 = <[l := d]> (heap w)).
    { destruct (Nat.even i).
      - eexists. split.
        + run_ok Hstep.
          erewrite bind_ok; [|apply load_run; simpl; apply lookup_insert_eq].
          run_by ax_plot_ok ltac:(by apply plot_args_ok_vec).
          reflexivity.
        + simpl. unfold saved, xlim_calls. simpl.
          rewrite !omap_app. simpl. by rewrite !app_nil_r.
      - exists w1. split; [by run_ok Hstep|]. done. }
    destruct Hbody as (w2 & Hrun2 & Hn2 & Hs2 & Hx2 & Hh2).
    destruct (IH (S i) (l :: done) w2) as (w' & Hrun & Hn & Hs & Hx & Hh).
    + intros l' Hl'. apply Hls. by right.
    + intros l'. rewrite Hh2.
      destruct (decide (l' = l)) as [->|Hne].
      * rewrite lookup_insert_eq, Hl0. simpl.
        destruct (decide (l ∈ l :: done)) as [_|Hn']; [done|].
        exfalso. apply Hn'. by left.
      * rewrite lookup_insert_ne by done. rewrite Hinv.
        destruct (decide (l' ∈ done)), (decide (l' ∈ l :: done)); try done.
        -- exfalso. apply n. by right.
        -- exfalso. apply elem_of_cons in e as [?|?]; done.
    + exists w'. split; [|split; [|split; [|split]]].
      * simpl. by run_ok Hrun2.
      * congruence.
      * congruence.
      * congruence.
      * intros l'. rewrite Hh.
        destruct (decide (l' ∈ ls ++ l :: done)) as [Hin|Hnin],
                 (decide (l' ∈ (l :: ls) ++ done)) as [Hin'|Hnin']; try done.
        -- exfalso. apply Hnin'. revert Hin.
           rewrite !elem_of_app, !elem_of_cons. tauto.
        -- exfalso. apply Hnin. revert Hin'.
           rewrite !elem_of_app, !elem_of_cons. tauto.
Qed.

Lemma index_last_nonempty (t : list R) :
  (0 < length t)%nat -> exists t1, index_last t = Ok t1.
Proof.
  intros Ht. unfold index_last.
  destruct (last t) as [t1|] eqn:Hl; [by exists t1|].
  apply last_None in Hl. subst. simpl in Ht. lia.
Qed.

Lemma acf_frame_run fig ax time ylabel tu grid file w :
  (0 < length time)%nat ->
  exists t0 t1,
    index0 time = Ok t0 /\ index_last time = Ok t1 /\
    acf_frame fig ax time ylabel tu grid file w
    = (Ok tt,
       World (next_handle w)
         (trace w ++
          [AxSetXlabel ax ("t [" ++ tu ++ "]"); AxSetYlabel ax ylabel;
           PltXlim t0 t1; AxGrid ax grid None; AxTickParams ax 8;
           FigTightLayout fig; FigSavefig fig file false])
         (heap w)).
Proof.
  intros Ht.
  destruct (index0_nonempty time Ht) as [t0 Ht0].
  destruct (index_last_nonempty time Ht) as [t1 Ht1].
  exists t0, t1. split; [done|]. split; [done|].
  unfold acf_frame. repeat (run_ok emit_run).
  rewrite Ht0, Ht1. run_ok (lift_run (A:=R)). run_ok (lift_run (A:=R)).
  repeat (run_ok emit_run). rewrite emit_run. simpl.
  by rewrite <- !app_assoc.
Qed.

(** Without normalization the loop writes nothing into the heap, whatever
    its outcome. *)
Lemma acf_loop_reads_only ax sc time ls : forall i w,
  heap (for_enumerate i ls (fun i l =>
          mret tt;;
          if Nat.even i
          then racf ← load l; ax_plot ax sc time (vec racf) plain;; mret tt
          else mret tt) w).2 = heap w.
Proof.
  induction ls as [|l ls IH]; intros i w; simpl; [done|].
  unfold mbind at 1. unfold M_bind at 1.
  match goal with |- context [match ?b w with _ => _ end] =>
    assert (Hb : heap (b w).2 = heap w)
  end.
  { unfold mbind, M_bind, mret, M_ret.
    destruct (Nat.even i); [|done].
    unfold load. destruct (heap w !! l) as [racf|]; [|done].
    unfold ax_plot. destruct (plot_args_ok time (vec racf)); done. }
  match goal with |- context [match ?b with _ => _ end] =>
    destruct b as [[[]|e] w1] eqn:Hrun end; simpl in Hb.
  - by rewrite IH.
  - done.
Qed.

Lemma acf_routine_normalizes sc ylabel time racfs tu grid file w :
  (0 < length time)%nat ->
  (forall l, In l racfs ->
     exists x0 rest, heap w !! l = Some (x0 :: rest) /\ x0 <> 0%R /\
                     length (x0 :: rest) = length time) ->
  exists w',
    (fa ← plt_subplots;
     acf_loop fa.2 sc time true racfs;;
     acf_frame fa.1 fa.2 time ylabel tu grid file) w = (Ok tt, w') /\
    forall l, heap w' !! l
              = if decide (l ∈ racfs) then divided_by_first <$> heap w !! l
                else heap w !! l.
Proof.
  intros Ht Hls.
  run_ok (eq_refl : plt_subplots w = _).
  set (w0 := World (S (next_handle w)) (trace w ++ [PltSubplots (next_handle w)])
               (heap w)).
  destruct (acf_loop_normalizes (next_handle w) sc time (heap w) racfs 0 [] w0)
    as (w1 & Hloop & _ & _ & _ & Hheap).
  { exact Hls. }
  { intros l. simpl. destruct (decide (l ∈ [])) as [Hin|_]; [|done].
    by apply elem_of_nil in Hin. }
  destruct (acf_frame_run (next_handle w) (next_handle w) time ylabel tu grid
              file w1 Ht) as (t0 & t1 & _ & _ & Hframe).
  eexists. split.
  - unfold acf_loop. run_ok Hloop. exact Hframe.
  - intros l. simpl. rewrite Hheap. by rewrite app_nil_r.
Qed.

Lemma acf_routine_reads_only sc ylabel time racfs tu grid file w :
  heap ((fa ← plt_subplots;
         acf_loop fa.2 sc time false racfs;;
         acf_frame fa.1 fa.2 time ylabel tu grid file) w).2 = heap w.
Proof.
  unfold mbind at 1. unfold M_bind at 1. simpl plt_subplots.
  cbv beta iota. simpl fst. simpl snd. unfold mbind at 1. unfold M_bind at 1.
  unfold acf_loop.
  pose proof (acf_loop_reads_only (next_handle w) sc time racfs 0
                (World (S (next_handle w))
                   (trace w ++ [PltSubplots (next_handle w)]) (heap w)))
    as Hloop.
  match goal with |- context [match ?b with _ => _ end] =>
    destruct b as [[[]|e] w1] eqn:Hrun end; simpl in Hloop |- *; [|done].
  rewrite <- Hloop. unfold acf_frame, mbind, M_bind, emit, lift.
  simpl. destruct (index0 time); simpl; [|done].
  destruct (index_last time); simpl; done.
Qed.

(** C6, as the code has it. The autocorrelation routines normalize in
    place: after a call with normalization enabled on sequences of the
    length of the time axis whose first samples are not zero, every input
    sequence holds its former samples divided by its former first sample,
    and no other array is touched; with normalization disabled every
    array holds what it held before the call. *)
Theorem acf_normalization_in_place (time : list R) (racfs : list nat)
    (tu file : string) (grid : bool) (w : world) :
  (0 < length time)%nat ->
  (forall l, In l racfs ->
     exists x0 rest, heap w !! l = Some (x0 :: rest) /\ x0 <> 0%R /\
                     length (x0 :: rest) = length time) ->
  (exists w1 w2,
     plot_rot_acfs_time time racfs tu true grid file w = (Ok tt, w1) /\
     plot_force_acfs_time time racfs tu true grid file w = (Ok tt, w2) /\
     forall l,
       heap w1 !! l
       = (if decide (l ∈ racfs) then divided_by_first <$> heap w !! l
          else heap w !! l) /\
       heap w2 !! l = heap w1 !! l) /\
  heap (plot_rot_acfs_time time racfs tu false grid file w).2 = heap w /\
  heap (plot_force_acfs_time time racfs tu false grid file w).2 = heap w.
Proof.
  intros Ht Hls. split; [|split].
  - destruct (acf_routine_normalizes Linear
                "$\langle\Theta$(t)$\Theta$(0)$\rangle$" time racfs tu grid
                file w Ht Hls) as (w1 & Hrun1 & Hheap1).
    destruct (acf_routine_normalizes SemilogX
                "$\langle\Delta$F(t)$\Delta$F(0)$\rangle$" time racfs tu grid
                file w Ht Hls) as (w2 & Hrun2 & Hheap2).
    exists w1, w2. split; [exact Hrun1|]. split; [exact Hrun2|].
    intros l. split; [apply Hheap1|]. by rewrite Hheap1, Hheap2.
  - apply acf_routine_reads_only.
  - apply acf_routine_reads_only.
Qed.

Lemma acf_normalization_in_place_witness :
  exists w1,
    plot_rot_acfs_time [0; 1]%R [0%nat] "ps" true true "racf.png"
      (World 0 [] {[ 0%nat := [2; 1]%R ]}) = (Ok tt, w1) /\
    heap w1 !! 0%nat = Some (divided_by_first [2; 1]%R).
Proof.
  destruct (acf_normalization_in_place [0; 1]%R [0%nat] "ps" "racf.png" true
              (World 0 [] {[ 0%nat := [2; 1]%R ]}))
    as [(w1 & w2 & Hrun & _ & Hheap) _].
  - simpl. lia.
  - intros l [<-|[]]. exists 2%R, [1%R]. simpl.
    split; [by rewrite lookup_singleton_eq|]. split; [lra|reflexivity].
  - exists w1. split; [exact Hrun|].
    destruct (Hheap 0%nat) as [H0 _]. rewrite H0. simpl.
    destruct (decide (0%nat ∈ [0%nat])) as [_|Hn];
      [by rewrite lookup_singleton_eq|].
    exfalso. apply Hn. by left.
Defined.

(** C6, as the claim has it, fails: the sequence [4, 2, 1, 0.5] handed to
    [plot_force_acfs_time] with normalization enabled holds
    [1, 0.5, 0.25, 0.125] after the call. *)
Lemma acf_inputs_are_overwritten :
  let w := World 0 [] {[ 0%nat := [4; 2; 1; 0.5]%R ]} in
  let w' := (plot_force_acfs_time [0; 1; 2; 3]%R [0%nat] "ps" true true
               "acf_per_window.png" w).2 in
  heap w' !! 0%nat = Some [1; 0.5; 0.25; 0.125]%R /\
  heap w' !! 0%nat <> heap w !! 0%nat.
Proof.
  intros w w'.
  assert (H : heap w' !! 0%nat = Some [1; 0.5; 0.25; 0.125]%R).
  { destruct (acf_routine_normalizes SemilogX
                "$\langle\Delta$F(t)$\Delta$F(0)$\rangle$" [0; 1; 2; 3]%R
                [0%nat] "ps" true "acf_per_window.png" w)
      as (w2 & Hrun & Hheap).
    - simpl. lia.
    - intros l [<-|[]]. exists 4%R, [2; 1; 0.5]%R. unfold w. simpl.
      split; [by rewrite lookup_singleton_eq|]. split; [lra|reflexivity].
    - unfold w', plot_force_acfs_time. rewrite Hrun. simpl.
      rewrite (Hheap 0%nat).
      destruct (decide (0%nat ∈ [0%nat])) as [_|Hn].
      + unfold w. simpl. rewrite lookup_singleton_eq. simpl. f_equal.
        repeat (apply cons_eq; [lra|]). reflexivity.
      + exfalso. apply Hn. by left. }
  split; [exact H|]. rewrite H. unfold w. simpl.
  rewrite lookup_singleton_eq. intros Heq. injection Heq as Heq _. lra.
Qed.

(** ** The routines for reduced profiles *)

Lemma np_binop_same_length (f : R -> R -> R) (u v : list R) :
  length v = length u -> np_binop f u v = Ok (zip_with f u v).
Proof. intros H. unfold np_binop. by rewrite H, Nat.eqb_refl. Qed.

Lemma fill_between_ok_vec (x y1 y2 : list R) :
  length y1 = length x -> length y2 = length x ->
  fill_between_ok x (vec y1) (vec y2) = true.
Proof.
  intros H1 H2. unfold fill_between_ok, first_dim, ndim, vec. simpl.
  by rewrite H1, H2, broadcastable_refl.
Qed.

Lemma zip_with_same_length (f : R -> R -> R) (u v : list R) :
  length v = length u -> length (zip_with f u v) = length u.
Proof. intros H. rewrite length_zip_with. lia. Qed.

Lemma bulk_reference_run ax zmin w :
  bulk_reference ax zmin w
  = (Ok tt,
     World (next_handle w)
       (trace w ++
        [AxPlot ax Linear [zmin; (zmin + 10)%R] (vec [3.86e-5%R; 3.86e-5%R])
           (LineStyle None None None (Some "--"%string) (Some "r"%string));
         AxPlot ax Linear [(- zmin - 10)%R; (- zmin)%R]
           (vec [3.86e-5%R; 3.86e-5%R])
           (LineStyle None None None (Some "--"%string) (Some "r"%string))])
       (heap w)).
Proof.
  unfold bulk_reference.
  run_by ax_plot_ok ltac:(reflexivity). run_by ax_plot_ok ltac:(reflexivity).
  unfold mret, M_ret. by rewrite <- app_assoc.
Qed.

Lemma plot_diffusion_coefficient_z_ok z d derr zu du file grid w z0 :
  index0 z = Ok z0 -> length d = length z -> length derr = length z ->
  plot_diffusion_coefficient_z z d derr zu du file grid w
  = (Ok tt,
     World (S (next_handle w))
       (trace w ++
        [PltSubplots (next_handle w);
         AxPlot (next_handle w) Linear z (vec d) plain;
         AxPlot (next_handle w) Linear [z0; (z0 + 10)%R]
           (vec [3.86e-5%R; 3.86e-5%R])
           (LineStyle None None None (Some "--"%string) (Some "r"%string));
         AxPlot (next_handle w) Linear [(- z0 - 10)%R; (- z0)%R]
           (vec [3.86e-5%R; 3.86e-5%R])
           (LineStyle None None None (Some "--"%string) (Some "r"%string));
         AxFillBetween (next_handle w) z
           (vec (zip_with Rplus d derr)) (vec (zip_with Rminus d derr))
           (Named "#a8a8a8") (Named "#a8a8a8") None;
         AxSetXlabel (next_handle w) ("z [" ++ zu ++ "]");
         AxSetYlabel (next_handle w) ("D(z) [" ++ du ++ "]");
         PltYlim 0 3e-4;
         PltXlim z0 (- z0);
         AxTickParams (next_handle w) 8;
         AxGrid (next_handle w) grid None;
         FigTightLayout (next_handle w);
         FigSavefig (next_handle w) file false])
       (heap w)).
Proof.
  intros Hz0 Hd He. unfold plot_diffusion_coefficient_z.
  rewrite Hz0. run_ok (lift_run (A:=R)).
  run_ok (eq_refl : plt_subplots w = _).
  run_by ax_plot_ok ltac:(by apply plot_args_ok_vec).
  run_ok bulk_reference_run.
  rewrite !np_binop_same_length by congruence.
  run_ok (lift_run (A:=list R)). run_ok (lift_run (A:=list R)).
  run_by ax_fill_between_ok
    ltac:(apply fill_between_ok_vec; rewrite zip_with_same_length; congruence).
  repeat (run_ok emit_run). rewrite emit_run. simpl.
  by rewrite <- !app_assoc.
Qed.

Lemma plot_sym_diffusion_coefficient_z_ok z d derr zu du file grid sys figax
    sv lg w z0 fa w1 :
  index0 z = Ok z0 -> length d = length z -> length derr = length z ->
  figure_and_axis figax w = (Ok fa, w1) ->
  plot_sym_diffusion_coefficient_z z d derr zu du file grid sys figax sv lg w
  = (Ok fa,
     World (next_handle w1)
       (trace w1 ++
        [AxPlot fa.2 SemilogY z (vec d) (LineStyle sys None None None None);
         AxPlot fa.2 Linear [z0; (z0 + 10)%R] (vec [3.86e-5%R; 3.86e-5%R])
           (LineStyle None None None (Some "--"%string) (Some "r"%string));
         AxPlot fa.2 Linear [(- z0 - 10)%R; (- z0)%R]
           (vec [3.86e-5%R; 3.86e-5%R])
           (LineStyle None None None (Some "--"%string) (Some "r"%string));
         AxFillBetween fa.2 z
           (vec (zip_with Rplus d derr)) (vec (zip_with Rminus d derr))
           (ColorOf (length (trace w1))) (ColorOf (length (trace w1)))
           (Some 0.2%R);
         AxSetXlabel fa.2 ("z [" ++ zu ++ "]");
         AxSetYlabel fa.2 ("D(z) [" ++ du ++ "]")] ++
        (if lg then [AxLegend fa.2] else []) ++
        [PltXlim z0 (- z0); AxTickParams fa.2 8; AxGrid fa.2 grid None] ++
        (if sv then [FigTightLayout fa.1; FigSavefig fa.1 file true] else []))
       (heap w1)).
Proof.
  intros Hz0 Hd He Hfig. unfold plot_sym_diffusion_coefficient_z.
  run_ok Hfig.
  run_by ax_plot_ok ltac:(by apply plot_args_ok_vec).
  rewrite Hz0. run_ok (lift_run (A:=R)).
  run_ok bulk_reference_run.
  rewrite !np_binop_same_length by congruence.
  run_ok (lift_run (A:=list R)). run_ok (lift_run (A:=list R)).
  run_by ax_fill_between_ok
    ltac:(apply fill_between_ok_vec; rewrite zip_with_same_length; congruence).
  repeat (run_ok emit_run). run_ok legend_if_run.
  repeat (run_ok emit_run). run_ok save_if_run.
  unfold mret, M_ret. destruct fa as [fig ax]. simpl.
  by rewrite <- !app_assoc.
Qed.

Lemma save_bottom_if_run sv fig ax file w :
  (if sv : bool
   then emit (AxSetYlimBottom ax 0);; emit (FigTightLayout fig);;
        emit (FigSavefig fig file true)
   else mret tt) w
  = (Ok tt,
     World (next_handle w)
       (trace w ++
        (if sv
         then [AxSetYlimBottom ax 0; FigTightLayout fig;
               FigSavefig fig file true]
         else []))
       (heap w)).
Proof.
  destruct sv.
  - run_ok emit_run. run_ok emit_run. rewrite emit_run. simpl.
    by rewrite <- !app_assoc.
  - rewrite app_nil_r. by destruct w.
Qed.

Lemma plot_symmetrized_free_energy_ok z g gerr zu eu file grid sys figax
    sv lg w z0 fa w1 :
  index0 z = Ok z0 -> length g = length z -> length gerr = length z ->
  figure_and_axis figax w = (Ok fa, w1) ->
  plot_symmetrized_free_energy z g gerr zu eu file grid sys figax sv lg w
  = (Ok fa,
     World (next_handle w1)
       (trace w1 ++
        [AxPlot fa.2 Linear z (vec g) (LineStyle sys None None None None);
         AxFillBetween fa.2 z
           (vec (zip_with Rplus g gerr)) (vec (zip_with Rminus g gerr))
           (ColorOf (length (trace w1))) (ColorOf (length (trace w1)))
           (Some 0.2%R);
         AxSetXlabel fa.2 ("z [" ++ zu ++ "]");
         AxSetYlabel fa.2 ("ΔG(z) [" ++ eu ++ "]");
         AxGrid fa.2 grid None] ++
        (if lg then [AxLegend fa.2] else []) ++
        [PltXlim z0 (- z0); AxTickParams fa.2 8] ++
        (if sv
         then [AxSetYlimBottom fa.2 0; FigTightLayout fa.1;
               FigSavefig fa.1 file true]
         else []))
       (heap w1)).
Proof.
  intros Hz0 Hd He Hfig. unfold plot_symmetrized_free_energy.
  run_ok Hfig.
  run_by ax_plot_ok ltac:(by apply plot_args_ok_vec).
  rewrite !np_binop_same_length by congruence.
  run_ok (lift_run (A:=list R)). run_ok (lift_run (A:=list R)).
  run_by ax_fill_between_ok
    ltac:(apply fill_between_ok_vec; rewrite zip_with_same_length; congruence).
  repeat (run_ok emit_run). run_ok legend_if_run.
  rewrite Hz0. run_ok (lift_run (A:=R)).
  repeat (run_ok emit_run). run_ok save_bottom_if_run.
  unfold mret, M_ret. destruct fa as [fig ax]. simpl.
  by rewrite <- !app_assoc.
Qed.

Lemma plot_sym_exp_free_energy_ok z dG dGe dz dze r re T kB zu file grid lg
    w z0 :
  index0 z = Ok z0 -> length dG = length z -> length dz = length z ->
  length r = length z -> length re = length z ->
  plot_sym_exp_free_energy z dG dGe dz dze r re T kB zu file grid lg w
  = (Ok tt,
     World (S (next_handle w))
       (trace w ++
        [PltSubplots (next_handle w);
         AxPlot (next_handle w) SemilogY z
           (vec (map (fun g => exp (g / (kB * T))) dG)) plain;
         AxPlot (next_handle w) SemilogY z
           (vec (map (fun d => (1 / d)%R) dz)) plain;
         AxPlot (next_handle w) Linear z (vec r) plain;
         AxFillBetween (next_handle w) z
           (vec (zip_with Rplus r re)) (vec (zip_with Rplus r re))
           (ColorOf (length (trace w) + 3)) (ColorOf (length (trace w) + 3))
           (Some 0.2%R);
         AxSetXlabel (next_handle w) ("z [" ++ zu ++ "]");
         AxSetYlabel (next_handle w) "1/D, exp(beta G)";
         AxGrid (next_handle w) grid None;
         PltXlim z0 (- z0);
         AxTickParams (next_handle w) 8;
         FigTightLayout (next_handle w);
         FigSavefig (next_handle w) file false])
       (heap w)).
Proof.
  intros Hz0 HG Hdz Hr Hre. unfold plot_sym_exp_free_energy.
  run_ok (eq_refl : plt_subplots w = _).
  run_by ax_plot_ok ltac:(apply plot_args_ok_vec; by rewrite length_map).
  run_by ax_plot_ok ltac:(apply plot_args_ok_vec; by rewrite length_map).
  run_by ax_plot_ok ltac:(by apply plot_args_ok_vec).
  rewrite !np_binop_same_length by congruence.
  run_ok (lift_run (A:=list R)). run_ok (lift_run (A:=list R)).
  run_by ax_fill_between_ok
    ltac:(apply fill_between_ok_vec; rewrite zip_with_same_length; congruence).
  repeat (run_ok emit_run). rewrite Hz0. run_ok (lift_run (A:=R)).
  repeat (run_ok emit_run). rewrite emit_run. simpl.
  rewrite <- !app_assoc. simpl. rewrite !length_app. simpl.
  replace (length (trace w) + 1 + 1 + 1)%nat with (length (trace w) + 3)%nat
    by lia.
  reflexivity.
Qed.

(** ** The limits of the x axis *)

Lemma foldl_Rmin_lower_bound (l : list R) : forall x,
  (forall y, In y l -> (x <= y)%R) -> foldl Rmin x l = x.
Proof.
  induction l as [|y l IH]; intros x Hx; simpl; [done|].
  rewrite Rmin_left by (apply Hx; by left).
  apply IH. intros y' Hy'. apply Hx. by right.
Qed.

Lemma minimum_of_ascending z0 rest :
  ascending (z0 :: rest) -> minimum (z0 :: rest) = Some z0.
Proof.
  intros Hasc. simpl. f_equal. apply foldl_Rmin_lower_bound.
  intros y Hy. apply list_elem_of_In, list_elem_of_lookup in Hy as [j Hj].
  apply (Hasc 0%nat (S j) z0 y); [lia|done|done].
Qed.

Lemma xlim_calls_app t1 t2 :
  xlim_calls (t1 ++ t2) = xlim_calls t1 ++ xlim_calls t2.
Proof. apply omap_app. Qed.

Lemma xlim_calls_cons c t :
  xlim_calls (c :: t)
  = match xlim_of c with
    | Some p => p :: xlim_calls t
    | None => xlim_calls t
    end.
Proof. reflexivity. Qed.

Lemma xlim_calls_plots ax sc x st (ys : list ndarray) :
  xlim_calls (map (fun y => AxPlot ax sc x y st) ys) = [].
Proof. induction ys as [|y ys IH]; [done|]. by rewrite map_cons, xlim_calls_cons. Qed.

(** The [plt.xlim] calls of an explicit list of calls. *)
Ltac xlim_trace :=
  cbn [trace];
  repeat (rewrite ?xlim_calls_app, ?xlim_calls_cons, ?xlim_calls_plots;
          cbn [xlim_of]);
  change (xlim_calls []) with (@nil (R * R));
  rewrite ?app_nil_r, ?app_nil_l.

Lemma xlim_calls_figure figax w fa w1 :
  figure_and_axis figax w = (Ok fa, w1) ->
  xlim_calls (trace w1) = xlim_calls (trace w).
Proof.
  destruct figax as [fa'|]; simpl; intros H.
  - unfold mret, M_ret in H. by injection H as _ <-.
  - unfold plt_subplots in H. injection H as _ <-. by xlim_trace.
Qed.

(** C7. Every profile routine, on inputs of the length of the axis,
    completes and calls [plt.xlim] once, with the first coordinate of the
    axis and its opposite; on an ascending axis the first coordinate is
    the minimum of the axis. For an axis starting at -20 the limits are
    (-20, 20), whatever the other coordinates are. *)
Theorem xlim_mirrors_lower_bound (z : list R) (z0 : R) (rest : list R) :
  z = z0 :: rest ->
  (ascending z -> minimum z = Some z0) /\
  (forall forces n file zu yu pm alpha grid,
     shape (normalize_to_matrix forces) = [n; length z] ->
     sets_xlim (plot_forces z forces file zu yu pm alpha grid) z0 (- z0) /\
     sets_xlim (plot_free_energy_z z forces file zu yu pm alpha grid)
       z0 (- z0)) /\
  (forall resist n zu ru file grid sys figax alpha sv lg,
     shape resist = [n; length z] ->
     sets_xlim (plot_resistance_z z resist zu ru file grid sys figax alpha
                  sv lg) z0 (- z0)) /\
  (forall v e zu yu file grid sys figax sv lg,
     length v = length z -> length e = length z ->
     sets_xlim (plot_diffusion_coefficient_z z v e zu yu file grid)
       z0 (- z0) /\
     sets_xlim (plot_sym_diffusion_coefficient_z z v e zu yu file grid sys
                  figax sv lg) z0 (- z0) /\
     sets_xlim (plot_symmetrized_free_energy z v e zu yu file grid sys
                  figax sv lg) z0 (- z0)) /\
  (forall dG dGe dz dze r re T kB zu file grid lg,
     length dG = length z -> length dz = length z ->
     length r = length z -> length re = length z ->
     sets_xlim (plot_sym_exp_free_energy z dG dGe dz dze r re T kB zu file
                  grid lg) z0 (- z0)) /\
  (z0 = (-20)%R -> (z0, (- z0)%R) = ((-20)%R, 20%R)).
Proof.
  intros Hz.
  assert (Hz0 : index0 z = Ok z0) by (by rewrite Hz).
  split; [|split; [|split; [|split; [|split]]]].
  - intros Hasc. rewrite Hz in Hasc |- *. by apply minimum_of_ascending.
  - intros forces n file zu yu pm alpha grid Hs.
    split; intros w; unfold plot_forces, plot_free_energy_z.
    + destruct (plot_sweeps_ok ("F(z) [" ++ yu ++ "]") z forces file zu pm
                  alpha grid w n (length z) z0 Hs eq_refl Hz0)
        as (m & s & _ & _ & Hrun).
      eexists _, _. split; [exact Hrun|].
      destruct pm; xlim_trace; reflexivity.
    + destruct (plot_sweeps_ok ("ΔG(z) [" ++ yu ++ "]") z forces file zu pm
                  alpha grid w n (length z) z0 Hs eq_refl Hz0)
        as (m & s & _ & _ & Hrun).
      eexists _, _. split; [exact Hrun|].
      destruct pm; xlim_trace; reflexivity.
  - intros resist n zu ru file grid sys figax alpha sv lg Hs w.
    destruct (figure_and_axis_run figax w) as (fa & w1 & Hfig & _).
    destruct (plot_resistance_z_ok z resist zu ru file grid sys figax alpha
                sv lg w n (length z) z0 fa w1 Hs eq_refl Hz0 Hfig)
      as (m & s & _ & _ & Hrun).
    eexists _, _. split; [exact Hrun|].
    rewrite <- (xlim_calls_figure figax w fa w1 Hfig).
    destruct lg, sv; xlim_trace; reflexivity.
  - intros v e zu yu file grid sys figax sv lg Hv He.
    split; [|split]; intros w.
    + eexists _, _. split.
      * by apply (plot_diffusion_coefficient_z_ok z v e zu yu file grid w z0).
      * xlim_trace; reflexivity.
    + destruct (figure_and_axis_run figax w) as (fa & w1 & Hfig & _).
      eexists _, _. split.
      * by apply (plot_sym_diffusion_coefficient_z_ok z v e zu yu file grid
                    sys figax sv lg w z0 fa w1).
      * rewrite <- (xlim_calls_figure figax w fa w1 Hfig).
        destruct lg, sv; xlim_trace; reflexivity.
    + destruct (figure_and_axis_run figax w) as (fa & w1 & Hfig & _).
      eexists _, _. split.
      * by apply (plot_symmetrized_free_energy_ok z v e zu yu file grid
                    sys figax sv lg w z0 fa w1).
      * rewrite <- (xlim_calls_figure figax w fa w1 Hfig).
        destruct lg, sv; xlim_trace; reflexivity.
  - intros dG dGe dz dze r re T kB zu file grid lg HG Hdz Hr Hre w.
    eexists _, _. split.
    + by apply (plot_sym_exp_free_energy_ok z dG dGe dz dze r re T kB zu file
                  grid lg w z0).
    + xlim_trace; reflexivity.
  - intros ->. f_equal. lra.
Qed.

Lemma xlim_mirrors_lower_bound_witness :
  minimum [-20; 0; 35]%R = Some (-20)%R /\
  sets_xlim (plot_diffusion_coefficient_z [-20; 0; 35]%R [1; 2; 3]%R
               [0; 0; 0]%R "A" "cm2/s" "d_z.pdf" true)
    (-20) (- -20).
Proof.
  destruct (xlim_mirrors_lower_bound [-20; 0; 35]%R (-20)%R [0; 35]%R eq_refl)
    as (Hmin & _ & _ & Hvec & _).
  split.
  - apply Hmin. intros i j x y Hij Hi Hj.
    destruct i as [|[|[|i]]], j as [|[|[|j]]]; simpl in Hi, Hj; try done;
      try lia; injection Hi as <-; injection Hj as <-; lra.
  - by apply (Hvec [1; 2; 3]%R [0; 0; 0]%R "A"%string "cm2/s"%string
                "d_z.pdf"%string true None None false false).
Defined.

(** ** An axis that does not fit the matrix *)

Lemma saved_app w c :
  saved (World (next_handle w) (trace w ++ [PltSubplots c]) (heap w))
  = saved w.
Proof. unfold saved. simpl. rewrite omap_app. simpl. by rewrite app_nil_r. Qed.

Lemma saved_figure figax w fa w1 :
  figure_and_axis figax w = (Ok fa, w1) -> saved w1 = saved w.
Proof.
  destruct figax as [fa'|]; simpl; intros H.
  - unfold mret, M_ret in H. by injection H as _ <-.
  - unfold plt_subplots in H. injection H as _ <-.
    unfold saved. simpl. rewrite omap_app. simpl. by rewrite app_nil_r.
Qed.

Lemma plot_args_refused (z : list R) (y : ndarray) c rest :
  shape y = c :: rest -> length z <> c -> plot_args_ok z y = false.
Proof.
  intros Hy Hz. unfold plot_args_ok, first_dim. rewrite Hy.
  by destruct (Nat.eqb_spec (length z) c).
Qed.

Lemma plot_sweeps_refused ylabel z forces file zu pm alpha grid w n c :
  shape (normalize_to_matrix forces) = [n; c] -> length z <> c ->
  pm = true \/ (0 < n)%nat ->
  plot_sweeps ylabel z forces file zu pm alpha grid w
  = (Raise ValueError,
     World (S (next_handle w)) (trace w ++ [PltSubplots (next_handle w)])
       (heap w)).
Proof.
  intros Hs Hz Hcurve. unfold plot_sweeps.
  set (F := normalize_to_matrix forces) in *.
  run_ok (eq_refl : plt_subplots w = _).
  destruct pm.
  - erewrite bind_raise; [reflexivity|].
    rewrite (mean_matrix F n c Hs). run_ok (lift_run (A:=ndarray)).
    erewrite bind_raise; [reflexivity|].
    apply ax_plot_raise. by apply (plot_args_refused z _ c []).
  - destruct Hcurve as [|Hn]; [done|].
    erewrite bind_ok; [|reflexivity]. cbv beta.
    rewrite (iterate_matrix F n c Hs), (rows_of_matrix F n c Hs).
    run_ok (lift_run (A:=list ndarray)).
    destruct n as [|n]; [lia|]. simpl chunks. rewrite map_cons.
    erewrite bind_raise; [reflexivity|].
    apply for_each_plot_raise. by apply (plot_args_refused z _ c []).
Qed.

Lemma plot_resistance_z_refused z resist zu ru file grid sys figax alpha sv lg
    w n c fa w1 :
  shape resist = [n; c] -> length z <> c ->
  figure_and_axis figax w = (Ok fa, w1) ->
  plot_resistance_z z resist zu ru file grid sys figax alpha sv lg w
  = (Raise ValueError, w1).
Proof.
  intros Hs Hz Hfig. unfold plot_resistance_z. run_ok Hfig.
  rewrite (mean_matrix resist n c Hs), (std_err_matrix resist n c Hs).
  run_ok (lift_run (A:=ndarray)). run_ok (lift_run (A:=ndarray)).
  erewrite bind_raise; [reflexivity|].
  apply ax_plot_raise. by apply (plot_args_refused z _ c []).
Qed.

(** C8, as the code has it. The sweep routines have no shape check of
    their own: when the length of the axis differs from the column count
    of the sweep matrix, the first curve handed to the drawing surface is
    refused there, with a [ValueError], before anything was saved.
    [plot_resistance_z] always draws a curve; [plot_forces] and
    [plot_free_energy_z] do when the mean is asked for or the matrix has
    a row. *)
Theorem mismatched_axis_is_refused (z : list R) (a : ndarray) (n c : nat) :
  shape a = [n; c] -> length z <> c ->
  (forall file zu yu pm alpha grid w,
     pm = true \/ (0 < n)%nat ->
     exists w1 w2,
       plot_forces z a file zu yu pm alpha grid w = (Raise ValueError, w1) /\
       saved w1 = saved w /\
       plot_free_energy_z z a file zu yu pm alpha grid w
       = (Raise ValueError, w2) /\
       saved w2 = saved w) /\
  (forall zu ru file grid sys figax alpha sv lg w,
     exists w',
       plot_resistance_z z a zu ru file grid sys figax alpha sv lg w
       = (Raise ValueError, w') /\
       saved w' = saved w).
Proof.
  intros Hs Hz. split.
  - intros file zu yu pm alpha grid w Hcurve.
    assert (HsN : shape (normalize_to_matrix a) = [n; c])
      by (by rewrite (normalize_matrix_id a n c Hs)).
    eexists _, _. unfold plot_forces, plot_free_energy_z.
    rewrite !(plot_sweeps_refused _ z a file zu pm alpha grid w n c HsN Hz
                Hcurve).
    repeat split; apply saved_app.
  - intros zu ru file grid sys figax alpha sv lg w.
    destruct (figure_and_axis_run figax w) as (fa & w1 & Hfig & _).
    exists w1. split.
    + by apply (plot_resistance_z_refused z a zu ru file grid sys figax alpha
                  sv lg w n c fa w1).
    + by apply (saved_figure figax w fa w1).
Qed.

Lemma mismatched_axis_is_refused_witness :
  exists w',
    plot_resistance_z [-2; -1; 0; 1; 2]%R
      (NdArray [1; 6]%nat [1; 2; 3; 4; 5; 6]%R) "A" "s/cm2" "res_z.pdf" true
      None None 0.5%R true false fresh = (Raise ValueError, w') /\
    saved w' = saved fresh.
Proof.
  destruct (mismatched_axis_is_refused [-2; -1; 0; 1; 2]%R
              (NdArray [1; 6]%nat [1; 2; 3; 4; 5; 6]%R) 1 6) as [_ Hres].
  - reflexivity.
  - simpl. lia.
  - apply Hres.
Defined.

(** C8, as the claim has it, fails: an axis of 5 points against a matrix
    of 6 columns without a row, the mean not asked for, draws no curve;
    the call completes and writes its file. With one row the call is
    refused, but by the drawing surface and with a [ValueError]. *)
Lemma mismatch_without_curves_is_saved :
  let run := plot_forces [-2; -1; 0; 1; 2]%R (NdArray [0; 6]%nat [])
               "forces.pdf" "A" "kcal/mol-A" false 0.5%R true fresh in
  let refused := plot_forces [-2; -1; 0; 1; 2]%R
                   (NdArray [1; 6]%nat [1; 2; 3; 4; 5; 6]%R)
                   "forces.pdf" "A" "kcal/mol-A" true 0.5%R true fresh in
  run.1 = Ok tt /\ saved run.2 = ["forces.pdf"%string] /\
  refused.1 <> Raise ShapeError /\ refused.1 = Raise ValueError.
Proof.
  split; [reflexivity|]. split; [reflexivity|].
  assert (H : (plot_forces [-2; -1; 0; 1; 2]%R
                 (NdArray [1; 6]%nat [1; 2; 3; 4; 5; 6]%R)
                 "forces.pdf" "A" "kcal/mol-A" true 0.5%R true fresh).1
              = Raise ValueError);
    [|split; [by rewrite H|exact H]].
  unfold plot_forces.
  rewrite (plot_sweeps_refused _ [-2; -1; 0; 1; 2]%R
             (NdArray [1; 6]%nat [1; 2; 3; 4; 5; 6]%R) _ _ true _ _ fresh 1 6).
  - reflexivity.
  - reflexivity.
  - simpl. lia.
  - by left.
Qed.

(** ** The exceptions a sweep routine can end in *)

Lemma never_bind {A B} e (m : M A) (k : A -> M B) :
  never_raises e m -> (forall a, never_raises e (k a)) ->
  never_raises e (m ≫= k).
Proof.
  intros Hm Hk w. unfold mbind, M_bind.
  destruct (m w) as [[a|e'] w'] eqn:Hrun.
  - apply Hk.
  - specialize (Hm w). rewrite Hrun in Hm. simpl in Hm |- *.
    intros Heq. apply Hm. by injection Heq as ->.
Qed.

Lemma never_ret {A} e (a : A) : never_raises e (mret a).
Proof. intros w. done. Qed.

Lemma never_emit e c : never_raises e (emit c).
Proof. intros w. done. Qed.

Lemma never_lift {A} e (r : result A) :
  r <> Raise e -> never_raises e (lift r).
Proof. intros Hr w. done. Qed.

Lemma never_subplots e : never_raises e plt_subplots.
Proof. intros w. done. Qed.

Lemma never_ax_plot e ax sc x y st :
  e <> ValueError -> never_raises e (ax_plot ax sc x y st).
Proof.
  intros He w. unfold ax_plot. destruct (plot_args_ok x y); simpl; congruence.
Qed.

Lemma never_fill_between e ax x y1 y2 fc ec al :
  e <> ValueError -> never_raises e (ax_fill_between ax x y1 y2 fc ec al).
Proof.
  intros He w. unfold ax_fill_between.
  destruct (fill_between_ok x y1 y2); simpl; congruence.
Qed.

Lemma never_for_each {A} e (body : A -> M unit) (l : list A) :
  (forall x, never_raises e (body x)) -> never_raises e (for_each l body).
Proof.
  intros Hbody. induction l as [|x l IH]; simpl.
  - apply never_ret.
  - apply never_bind; [apply Hbody|]. intros _. exact IH.
Qed.

Lemma never_legend e b ax : never_raises e (legend_if b ax).
Proof. destruct b; [apply never_emit|apply never_ret]. Qed.

Lemma never_figure e figax : never_raises e (figure_and_axis figax).
Proof. destruct figax; [apply never_ret|apply never_subplots]. Qed.

Lemma mean_not_shape_error a : ensemble_mean a <> Raise ShapeError.
Proof. unfold ensemble_mean, np_mean_axis0. by destruct (shape a). Qed.

Lemma std_err_not_shape_error a : ensemble_std_err a <> Raise ShapeError.
Proof.
  unfold ensemble_std_err, np_std_axis0, shape0. by destruct (shape a).
Qed.

Lemma iterate_not_shape_error a : iterate a <> Raise ShapeError.
Proof. unfold iterate. by destruct (shape a). Qed.

Lemma index0_not_shape_error z : index0 z <> Raise ShapeError.
Proof. by destruct z. Qed.

(** Breaking a routine down into its steps. *)
Ltac never_step :=
  first [ apply never_bind; [|intros ?]
        | apply never_ret | apply never_emit | apply never_subplots
        | apply never_legend | apply never_figure
        | apply never_ax_plot; discriminate
        | apply never_fill_between; discriminate
        | apply never_lift;
          first [ apply mean_not_shape_error | apply std_err_not_shape_error
                | apply iterate_not_shape_error
                | apply index0_not_shape_error ]
        | apply never_for_each; intros ? ].

Ltac never_all :=
  repeat first
    [ never_step
    | match goal with
      | |- never_raises _ (if ?b then _ else _) => destruct b
      end ].

Lemma plot_sweeps_no_shape_error ylabel z forces file zu pm alpha grid :
  never_raises ShapeError
    (plot_sweeps ylabel z forces file zu pm alpha grid).
Proof. unfold plot_sweeps. never_all. Qed.

Lemma plot_resistance_z_no_shape_error z resist zu ru file grid sys figax
    alpha sv lg :
  never_raises ShapeError
    (plot_resistance_z z resist zu ru file grid sys figax alpha sv lg).
Proof. unfold plot_resistance_z. never_all. Qed.

(** C9, as the code has it. Normalization never fails: an input of rank
    greater than 2 is handed on as it is, like every input whose rank is
    not 1, and no sweep routine ends in a [ShapeError], whatever it is
    given. *)
Theorem higher_ranks_pass_unchecked (a : ndarray) :
  (2 < ndim a)%nat ->
  normalize_to_matrix a = a /\
  (forall z file zu yu pm alpha grid,
     never_raises ShapeError (plot_forces z a file zu yu pm alpha grid) /\
     never_raises ShapeError
       (plot_free_energy_z z a file zu yu pm alpha grid)) /\
  (forall z zu ru file grid sys figax alpha sv lg,
     never_raises ShapeError
       (plot_resistance_z z a zu ru file grid sys figax alpha sv lg)).
Proof.
  intros Hrank. split; [|split].
  - apply normalize_other_rank. lia.
  - intros z file zu yu pm alpha grid.
    split; apply plot_sweeps_no_shape_error.
  - intros. apply plot_resistance_z_no_shape_error.
Qed.

Lemma higher_ranks_pass_unchecked_witness :
  normalize_to_matrix (NdArray [1; 1; 1]%nat [5%R])
  = NdArray [1; 1; 1]%nat [5%R].
Proof.
  apply (higher_ranks_pass_unchecked (NdArray [1; 1; 1]%nat [5%R])).
  unfold ndim. simpl. lia.
Defined.

(** C9, as the claim has it, fails: an array of rank 3 is normalized to
    itself, and [plot_forces], not asked for the mean, draws it and
    writes its file. *)
Lemma rank_three_is_accepted :
  let a := NdArray [1; 1; 1]%nat [5%R] in
  let run := plot_forces [(-1)%R] a "forces.pdf" "A" "kcal/mol-A" false 0.5%R
               true fresh in
  ndim a = 3%nat /\ normalize_to_matrix a = a /\
  run.1 = Ok tt /\ saved run.2 = ["forces.pdf"%string].
Proof. repeat split. Qed.

(** ** The uncertainty band *)

(** C10. [plot_sym_exp_free_energy] hands [resist+resist_err] to
    [fill_between] as both bounds: for the resistance [2, 4] with the
    error [1, 1] the band it draws runs from [3, 5] to [3, 5] and is not
    the band of one error around the profile, which
    [plot_symmetrized_free_energy] draws for the same profile. *)
Theorem exp_free_energy_band_is_flat :
  let z := [-1; 1]%R in
  let v := [2; 4]%R in
  let e := [1; 1]%R in
  (exists w',
     plot_sym_exp_free_energy z [0; 0]%R [0; 0]%R [1; 1]%R [0; 0]%R v e
       300 1.9872041e-3 "A" "expdelG-sym.pdf" true false fresh = (Ok tt, w') /\
     (exists ax fc ec al,
        In (AxFillBetween ax z (vec [2 + 1; 4 + 1]%R) (vec [2 + 1; 4 + 1]%R)
              fc ec al) (trace w')) /\
     (forall ax x y1 y2 fc ec al,
        In (AxFillBetween ax x y1 y2 fc ec al) (trace w') ->
        ~ band_around v e y1 y2)) /\
  (exists fa w',
     plot_symmetrized_free_energy z v e "A" "kcal/mol" "delG-sym.pdf" true
       None None true false fresh = (Ok fa, w') /\
     (exists ax fc ec al,
        In (AxFillBetween ax z (vec [2 + 1; 4 + 1]%R) (vec [2 - 1; 4 - 1]%R)
              fc ec al) (trace w')) /\
     (forall ax x y1 y2 fc ec al,
        In (AxFillBetween ax x y1 y2 fc ec al) (trace w') ->
        band_around v e y1 y2)).
Proof.
  intros z v e. split.
  - eexists. split; [|split].
    + apply (plot_sym_exp_free_energy_ok z _ _ _ _ v e _ _ _ _ _ _ fresh (-1)%R);
        reflexivity.
    + eexists _, _, _, _. simpl. do 4 right. left. reflexivity.
    + intros ax x y1 y2 fc ec al Hin. simpl in Hin.
      repeat (destruct Hin as [Hin|Hin]; try discriminate Hin); [|done].
      injection Hin as _ _ <- <- _ _ _.
      unfold band_around. simpl.
      intros [[_ H]|[H _]]; injection H as H _; lra.
  - eexists _, _. split; [|split].
    + apply (plot_symmetrized_free_energy_ok z v e _ _ _ _ _ None _ _ fresh
               (-1)%R (0%nat, 0%nat)); reflexivity.
    + eexists _, _, _, _. simpl. do 2 right. left. reflexivity.
    + intros ax x y1 y2 fc ec al Hin. simpl in Hin.
      repeat (destruct Hin as [Hin|Hin]; try discriminate Hin); [|done].
      injection Hin as _ _ <- <- _ _ _.
      unfold band_around. simpl. by left.
Qed.

(** * Further properties of the statistics *)

Lemma matrix_rows_length a n c :
  shape a = [n; c] -> well_shaped a ->
  Forall (fun r => length r = c) (rows_of a).
Proof.
  intros Hs Hw. rewrite (rows_of_matrix a n c Hs).
  apply chunks_block_length. unfold well_shaped in Hw. rewrite Hw, Hs.
  simpl. lia.
Qed.



(** X1. The standard error of a sweep matrix with at least one sweep is
    never negative, so the first curve handed to [fill_between],
    [mean + std_err], is nowhere below the second, [mean - std_err]. *)
Theorem std_err_is_nonnegative (a : ndarray) (n c : nat) :
  shape a = [n; c] -> (0 < n)%nat ->
  exists m s,
    ensemble_mean a = Ok m /\ ensemble_std_err a = Ok s /\
    (forall j x, data s !! j = Some x -> (0 <= x)%R) /\
    (forall j lo hi,
       data (nd_sub m s) !! j = Some lo -> data (nd_add m s) !! j = Some hi ->
       (lo <= hi)%R).
Proof.
  intros Hs Hn.
  destruct (ensemble_std_err a) as [s|] eqn:Hse;
    [|by rewrite (std_err_matrix a n c Hs) in Hse].
  exists (NdArray [c] (map (fun s => (s / INR n)%R) (sum_rows c (rows_of a)))), s.
  split; [apply (mean_matrix a n c Hs)|]. split; [reflexivity|].
  assert (Hpos : forall j x, data s !! j = Some x -> (0 <= x)%R).
  { rewrite (std_err_matrix a n c Hs) in Hse. injection Hse as <-.
    intros j x Hx. simpl in Hx. rewrite !list_lookup_fmap in Hx.
    destruct (sum_rows c _ !! j) as [y|]; simpl in Hx; [|done].
    injection Hx as <-.
    apply Rmult_le_pos; [apply sqrt_pos|].
    left. apply Rinv_0_lt_compat, sqrt_lt_R0, lt_0_INR. exact Hn. }
  split; [exact Hpos|].
  intros j lo hi Hlo Hhi. simpl in Hlo, Hhi. unfold vsub, vadd in Hlo, Hhi.
  rewrite lookup_zip_with in Hlo, Hhi.
  destruct (map _ (sum_rows c (rows_of a)) !! j) as [mj|]; simpl in *; [|done].
  destruct (data s !! j) as [sj|] eqn:Hsj; simpl in *; [|done].
  injection Hlo as <-. injection Hhi as <-.
  pose proof (Hpos j sj Hsj). lra.
Qed.

Lemma std_err_is_nonnegative_witness :
  exists m s,
    ensemble_mean (NdArray [2; 1]%nat [1; 3]%R) = Ok m /\
    ensemble_std_err (NdArray [2; 1]%nat [1; 3]%R) = Ok s /\
    (forall j x, data s !! j = Some x -> (0 <= x)%R).
Proof.
  destruct (std_err_is_nonnegative (NdArray [2; 1]%nat [1; 3]%R) 2 1)
    as (m & s & Hm & Hs & Hpos & _).
  - reflexivity.
  - lia.
  - exists m, s. split; [exact Hm|]. split; [exact Hs|exact Hpos].
Defined.












(** * Further properties of the autocorrelation routines *)

Lemma drawn_from_lookup {A} (l : list A) : forall i k,
  drawn_from i l !! k
  = l !! (if Nat.even i then 2 * k else S (2 * k))%nat.
Proof.
  induction l as [|x l IH]; intros i k; simpl.
  - by destruct (Nat.even i).
  - pose proof (IH (S i)) as IHi.
    rewrite Nat.even_succ, <- Nat.negb_even in IHi.
    destruct (Nat.even i) eqn:Hi; simpl in IHi.
    + destruct k as [|k]; simpl; [done|].
      rewrite IHi. f_equal. lia.
    + rewrite IHi. reflexivity.
Qed.

Lemma drawn_from_length {A} (l : list A) : forall i,
  length (drawn_from i l)
  = (if Nat.even i then Nat.div2 (S (length l)) else Nat.div2 (length l)).
Proof.
  induction l as [|x l IH]; intros i; simpl.
  - by destruct (Nat.even i).
  - destruct (Nat.even i) eqn:Hi; simpl;
      rewrite (IH (S i)), Nat.even_succ, <- Nat.negb_even, Hi; reflexivity.
Qed.

Lemma curves_app t1 t2 : curves (t1 ++ t2) = curves t1 ++ curves t2.
Proof. apply omap_app. Qed.

Lemma curves_cons c t :
  curves (c :: t)
  = match curve_of c with Some y => y :: curves t | None => curves t end.
Proof. reflexivity. Qed.

Lemma ret_run {A} (a : A) w : (mret a : M A) w = (Ok a, w).
Proof. reflexivity. Qed.

(** The loop without normalization: the heap is only read. *)
Lemma acf_loop_draws ax sc time ls : forall i w,
  (forall l, In l ls ->
     exists racf, heap w !! l = Some racf /\ length racf = length time) ->
  for_enumerate i ls (fun i l =>
    mret tt;;
    if Nat.even i
    then racf ← load l; ax_plot ax sc time (vec racf) plain;; mret tt
    else mret tt) w
  = (Ok tt,
     World (next_handle w)
       (trace w ++
        map (fun l => AxPlot ax sc time (vec (default [] (heap w !! l))) plain)
            (drawn_from i ls))
       (heap w)).
Proof.
  induction ls as [|l ls IH]; intros i w Hls; simpl.
  - rewrite app_nil_r. by destruct w.
  - destruct (Hls l (or_introl eq_refl)) as (racf & Hl & Hlen).
    destruct (Nat.even i) eqn:Hi.
    + erewrite bind_ok.
      2:{ run_ok (ret_run tt).
          run_ok (load_run l racf w Hl).
          run_by ax_plot_ok ltac:(by apply plot_args_ok_vec).
          reflexivity. }
      rewrite IH.
      * simpl. rewrite Hl. simpl. by rewrite <- app_assoc.
      * intros l' Hl'. simpl. apply Hls. by right.
    + erewrite bind_ok; [|reflexivity]. apply IH.
      intros l' Hl'. apply Hls. by right.
Qed.

(** The loop with normalization: what it draws and what it leaves in the
    heap, [H0] being the heap before the first sequence was normalized. *)
Lemma acf_loop_normalizes_and_draws ax sc time (H0 : gmap nat (list R)) ls :
  forall i done w,
  (forall l, In l ls ->
     exists x0 rest, H0 !! l = Some (x0 :: rest) /\ x0 <> 0%R /\
                     length (x0 :: rest) = length time) ->
  (forall l, heap w !! l
             = if decide (l ∈ done) then divided_by_first <$> H0 !! l
               else H0 !! l) ->
  exists w',
    for_enumerate i ls (fun i l =>
      idiv_first l;;
      if Nat.even i
      then racf ← load l; ax_plot ax sc time (vec racf) plain;; mret tt
      else mret tt) w = (Ok tt, w') /\
    next_handle w' = next_handle w /\
    trace w'
    = trace w ++
      map (fun l => AxPlot ax sc time
                      (vec (divided_by_first (default [] (H0 !! l)))) plain)
          (drawn_from i ls) /\
    (forall l, heap w' !! l
               = if decide (l ∈ ls ++ done) then divided_by_first <$> H0 !! l
                 else H0 !! l).
Proof.
  induction ls as [|l ls IH]; intros i done w Hls Hinv.
  - exists w. simpl. rewrite app_nil_r. repeat split; done.
  - destruct (Hls l (or_introl eq_refl)) as (x0 & rest & Hl0 & Hx0 & Hlen).
    set (d := divided_by_first (x0 :: rest)).
    assert (Hstep : idiv_first l w
                    = (Ok tt, World (next_handle w) (trace w)
                                (<[l := d]> (heap w)))).
    { pose proof (Hinv l) as Hl. rewrite Hl0 in Hl.
      destruct (decide (l ∈ done)).
      - eapply idiv_first_run; [exact Hl|].
        by apply normalize_acf_divided.
      - eapply idiv_first_run; [exact Hl|]. reflexivity. }
    assert (Hd : length d = length time).
    { unfold d. by rewrite divided_by_first_length. }
    assert (Hbody : exists w2,
      (idiv_first l;;
       if Nat.even i
       then racf ← load l; ax_plot ax sc time (vec racf) plain;; mret tt
       else mret tt) w = (Ok tt, w2) /\
      next_handle w2 = next_handle w /\
      trace w2 = trace w ++ (if Nat.even i
                             then [AxPlot ax sc time (vec d) plain] else []) /\
      heap w2 = <[l := d]> (heap w)).
    { destruct (Nat.even i).
      - eexists. split.
        + run_ok Hstep.
          erewrite bind_ok; [|apply load_run; simpl; apply lookup_insert_eq].
          run_by ax_plot_ok ltac:(by apply plot_args_ok_vec).
          reflexivity.
        + done.
      - eexists. split; [by run_ok Hstep|]. simpl.
        by rewrite app_nil_r. }
    destruct Hbody as (w2 & Hrun2 & Hn2 & Ht2 & Hh2).
    destruct (IH (S i) (l :: done) w2) as (w' & Hrun & Hn & Ht & Hh).
    + intros l' Hl'. apply Hls. by right.
    + intros l'. rewrite Hh2.
      destruct (decide (l' = l)) as [->|Hne].
      * rewrite lookup_insert_eq, Hl0. simpl.
        destruct (decide (l ∈ l :: done)) as [_|Hn']; [done|].
        exfalso. apply Hn'. by left.
      * rewrite lookup_insert_ne by done. rewrite Hinv.
        destruct (decide (l' ∈ done)) as [Hin|Hnin],
                 (decide (l' ∈ l :: done)) as [Hin'|Hnin']; try done.
        -- exfalso. apply Hnin'. by right.
        -- exfalso. apply elem_of_cons in Hin' as [?|?]; done.
    + exists w'. split; [|split; [|split]].
      * simpl. by run_ok Hrun2.
      * congruence.
      * rewrite Ht, Ht2. cbn [drawn_from].
        destruct (Nat.even i).
        -- rewrite map_cons, Hl0. cbn [default]. fold d.
           by rewrite <- app_assoc.
        -- by rewrite app_nil_r.
      * intros l'. rewrite Hh.
        destruct (decide (l' ∈ ls ++ l :: done)) as [Hin|Hnin],
                 (decide (l' ∈ (l :: ls) ++ done)) as [Hin'|Hnin']; try done.
        -- exfalso. apply Hnin'. revert Hin.
           rewrite !elem_of_app, !elem_of_cons. tauto.
        -- exfalso. apply Hnin. revert Hin'.
           rewrite !elem_of_app, !elem_of_cons. tauto.
Qed.

Lemma curves_plots {A} ax sc x st (f : A -> ndarray) (ls : list A) :
  curves (map (fun l => AxPlot ax sc x (f l) st) ls) = map f ls.
Proof.
  induction ls as [|l ls IH]; [done|].
  by rewrite !map_cons, curves_cons, IH.
Qed.

Lemma xlim_calls_plots_of {A} ax sc x st (f : A -> ndarray) (ls : list A) :
  xlim_calls (map (fun l => AxPlot ax sc x (f l) st) ls) = [].
Proof.
  induction ls as [|l ls IH]; [done|].
  by rewrite map_cons, xlim_calls_cons.
Qed.

(** Curves are not image files. *)
Lemma saved_plots_of {A} ax sc x st (f : A -> ndarray) (ls : list A) :
  omap (fun c => match c with FigSavefig _ f _ => Some f | _ => None end)
       (map (fun l => AxPlot ax sc x (f l) st) ls) = [].
Proof. induction ls as [|l ls IH]; [done|]. exact IH. Qed.

(** The curves of one autocorrelation routine. *)
Lemma acf_routine_curves sc ylabel time racfs tu (nz grid : bool) file w :
  (0 < length time)%nat ->
  (forall l, In l racfs ->
     exists x0 rest, heap w !! l = Some (x0 :: rest) /\ x0 <> 0%R /\
                     length (x0 :: rest) = length time) ->
  exists w' t0 t1,
    (fa ← plt_subplots;
     acf_loop fa.2 sc time nz racfs;;
     acf_frame fa.1 fa.2 time ylabel tu grid file) w = (Ok tt, w') /\
    index0 time = Ok t0 /\ index_last time = Ok t1 /\
    curves (trace w')
    = curves (trace w) ++
      map (fun l => vec ((if nz then divided_by_first else fun r => r)
                           (default [] (heap w !! l))))
          (drawn_from 0 racfs) /\
    xlim_calls (trace w') = xlim_calls (trace w) ++ [(t0, t1)] /\
    saved w' = saved w ++ [file].
Proof.
  intros Ht Hls.
  run_ok (eq_refl : plt_subplots w = _).
  set (h := next_handle w).
  set (w0 := World (S h) (trace w ++ [PltSubplots h]) (heap w)).
  assert (Hloop : exists w1,
    acf_loop h sc time nz racfs w0 = (Ok tt, w1) /\
    trace w1
    = trace w0 ++
      map (fun l => AxPlot h sc time
                      (vec ((if nz then divided_by_first else fun r => r)
                              (default [] (heap w !! l)))) plain)
          (drawn_from 0 racfs)).
  { unfold acf_loop. destruct nz.
    - destruct (acf_loop_normalizes_and_draws h sc time (heap w) racfs 0 [] w0)
        as (w1 & Hrun & _ & Htr & _).
      + exact Hls.
      + intros l. simpl. destruct (decide (l ∈ [])) as [Hin|_]; [|done].
        by apply elem_of_nil in Hin.
      + exists w1. split; [exact Hrun|exact Htr].
    - eexists. split.
      + apply acf_loop_draws. intros l Hl.
        destruct (Hls l Hl) as (x0 & rest & Hl0 & _ & Hlen).
        by exists (x0 :: rest).
      + reflexivity. }
  destruct Hloop as (w1 & Hrun1 & Htr1).
  destruct (acf_frame_run h h time ylabel tu grid file w1 Ht)
    as (t0 & t1 & Ht0 & Ht1 & Hframe).
  eexists _, t0, t1. split; [run_ok Hrun1; exact Hframe|].
  split; [exact Ht0|]. split; [exact Ht1|].
  cbn [trace]. rewrite Htr1. cbn [trace w0]. split; [|split].
  - rewrite !curves_app, !curves_cons. cbn [curve_of].
    rewrite curves_plots.
    change (curves []) with (@nil ndarray). by rewrite !app_nil_r.
  - rewrite !xlim_calls_app, xlim_calls_plots_of, !xlim_calls_cons.
    cbn [xlim_of]. change (xlim_calls []) with (@nil (R * R)).
    by rewrite !app_nil_r.
  - unfold saved. cbn [trace]. rewrite !omap_app, saved_plots_of. simpl.
    by rewrite !app_nil_r.
Qed.

(** X4. The autocorrelation routines draw every second sequence only:
    the sequences at the positions 0, 2, 4, ... of their input, in that
    order, normalized when normalization is asked for, and as many curves
    as half the number of sequences, rounded up. A completed call has
    written exactly one file. *)
Theorem acf_routines_draw_every_second (time : list R) (racfs : list nat)
    (tu file : string) (nz grid : bool) (w : world) :
  (0 < length time)%nat ->
  (forall l, In l racfs ->
     exists x0 rest, heap w !! l = Some (x0 :: rest) /\ x0 <> 0%R /\
                     length (x0 :: rest) = length time) ->
  (exists w1 w2 w3,
     plot_rot_acfs_time time racfs tu nz grid file w = (Ok tt, w1) /\
     plot_force_acfs_time time racfs tu nz grid file w = (Ok tt, w2) /\
     plot_int_acfs_time time racfs tu grid file w = (Ok tt, w3) /\
     curves (trace w1)
     = curves (trace w) ++
       map (fun l => vec ((if nz then divided_by_first else fun r => r)
                            (default [] (heap w !! l))))
           (drawn_from 0 racfs) /\
     curves (trace w2) = curves (trace w1) /\
     curves (trace w3)
     = curves (trace w) ++
       map (fun l => vec (default [] (heap w !! l))) (drawn_from 0 racfs) /\
     saved w1 = saved w ++ [file] /\ saved w2 = saved w ++ [file] /\
     saved w3 = saved w ++ [file]) /\
  length (drawn_from 0 racfs) = Nat.div2 (S (length racfs)) /\
  (forall k, drawn_from 0 racfs !! k = racfs !! (2 * k)%nat).
Proof.
  intros Ht Hls. split; [|split].
  - destruct (acf_routine_curves Linear
                "$\langle\Theta$(t)$\Theta$(0)$\rangle$" time racfs tu nz
                grid file w Ht Hls)
      as (w1 & ? & ? & Hrun1 & _ & _ & Hc1 & _ & Hs1).
    destruct (acf_routine_curves SemilogX
                "$\langle\Delta$F(t)$\Delta$F(0)$\rangle$" time racfs tu nz
                grid file w Ht Hls)
      as (w2 & ? & ? & Hrun2 & _ & _ & Hc2 & _ & Hs2).
    destruct (acf_routine_curves LogLog
                "$\int_0^t\langle\Delta$F(t')$\Delta$F(0)$\rangle$dt'" time
                racfs tu false grid file w Ht Hls)
      as (w3 & ? & ? & Hrun3 & _ & _ & Hc3 & _ & Hs3).
    exists w1, w2, w3. repeat split; try done. by rewrite Hc1, Hc2.
  - apply (drawn_from_length racfs 0).
  - intros k. apply (drawn_from_lookup racfs 0 k).
Qed.

Lemma acf_routines_draw_every_second_witness :
  exists w3,
    plot_int_acfs_time [1; 2]%R [0; 0; 0]%nat "ps" true "int_acf.png"
      (World 0 [] {[ 0%nat := [4; 2]%R ]}) = (Ok tt, w3) /\
    length (drawn_from 0 [0; 0; 0]%nat) = Nat.div2 4.
Proof.
  destruct (acf_routines_draw_every_second [1; 2]%R [0; 0; 0]%nat "ps"
              "int_acf.png" false true
              (World 0 [] {[ 0%nat := [4; 2]%R ]}))
    as [(w1 & w2 & w3 & _ & _ & Hrun & _) [Hlen _]].
  - simpl. lia.
  - intros l Hl. exists 4%R, [2%R].
    assert (l = 0%nat) as ->
      by (destruct Hl as [<-|[<-|[<-|[]]]]; reflexivity).
    cbn [heap]. split; [by rewrite lookup_singleton_eq|].
    split; [lra|reflexivity].
  - exists w3. split; [exact Hrun|exact Hlen].
Defined.

(** The two normalizing routines in a row. *)
Lemma acf_routine_twice sc1 sc2 yl1 yl2 time racfs tu1 tu2 g1 g2 f1 f2 w :
  (0 < length time)%nat ->
  (forall l, In l racfs ->
     exists x0 rest, heap w !! l = Some (x0 :: rest) /\ x0 <> 0%R /\
                     length (x0 :: rest) = length time) ->
  exists w1 w2,
    (fa ← plt_subplots;
     acf_loop fa.2 sc1 time true racfs;;
     acf_frame fa.1 fa.2 time yl1 tu1 g1 f1) w = (Ok tt, w1) /\
    (fa ← plt_subplots;
     acf_loop fa.2 sc2 time true racfs;;
     acf_frame fa.1 fa.2 time yl2 tu2 g2 f2) w1 = (Ok tt, w2) /\
    heap w2 = heap w1.
Proof.
  intros Ht Hls.
  destruct (acf_routine_normalizes sc1 yl1 time racfs tu1 g1 f1 w Ht Hls)
    as (w1 & Hrun1 & Hh1).
  assert (Hls1 : forall l, In l racfs ->
            exists x0 rest, heap w1 !! l = Some (x0 :: rest) /\ x0 <> 0%R /\
                            length (x0 :: rest) = length time).
  { intros l Hl. destruct (Hls l Hl) as (x0 & rest & Hl0 & Hx0 & Hlen).
    exists (x0 / x0)%R, (map (fun x => (x / x0)%R) rest).
    split; [|split].
    - rewrite Hh1, Hl0.
      destruct (decide (l ∈ racfs)) as [_|Hn]; [done|].
      exfalso. apply Hn. by apply list_elem_of_In.
    - replace (x0 / x0)%R with 1%R by (by field). lra.
    - simpl in Hlen |- *. by rewrite length_map. }
  destruct (acf_routine_normalizes sc2 yl2 time racfs tu2 g2 f2 w1 Ht Hls1)
    as (w2 & Hrun2 & Hh2).
  exists w1, w2. split; [exact Hrun1|]. split; [exact Hrun2|].
  apply map_eq. intros l. rewrite Hh2.
  destruct (decide (l ∈ racfs)) as [Hin|_]; [|done].
  apply list_elem_of_In in Hin.
  destruct (Hls l Hin) as (x0 & rest & Hl0 & Hx0 & _).
  rewrite Hh1, Hl0.
  destruct (decide (l ∈ racfs)) as [_|Hn];
    [|exfalso; apply Hn; by apply list_elem_of_In].
  cbn [fmap option_fmap option_map].
  by rewrite (divided_by_first_idempotent x0 rest Hx0).
Qed.

(** X5. Normalizing twice is normalizing once: after a normalizing call
    of an autocorrelation routine, a second normalizing call on the same
    sequences leaves every array as the first call left it. *)
Theorem acf_normalization_is_idempotent (time : list R) (racfs : list nat)
    (tu file : string) (grid : bool) (w : world) :
  (0 < length time)%nat ->
  (forall l, In l racfs ->
     exists x0 rest, heap w !! l = Some (x0 :: rest) /\ x0 <> 0%R /\
                     length (x0 :: rest) = length time) ->
  (exists w1 w2,
     plot_rot_acfs_time time racfs tu true grid file w = (Ok tt, w1) /\
     plot_rot_acfs_time time racfs tu true grid file w1 = (Ok tt, w2) /\
     heap w2 = heap w1) /\
  (exists w1 w2,
     plot_force_acfs_time time racfs tu true grid file w = (Ok tt, w1) /\
     plot_rot_acfs_time time racfs tu true grid file w1 = (Ok tt, w2) /\
     heap w2 = heap w1) /\
  (exists w1 w2,
     plot_rot_acfs_time time racfs tu true grid file w = (Ok tt, w1) /\
     plot_force_acfs_time time racfs tu true grid file w1 = (Ok tt, w2) /\
     heap w2 = heap w1).
Proof.
  intros Ht Hls. split; [|split]; by apply acf_routine_twice.
Qed.

Lemma acf_normalization_is_idempotent_witness :
  exists w1 w2,
    plot_rot_acfs_time [0; 1]%R [0%nat] "ps" true true "racf.png"
      (World 0 [] {[ 0%nat := [2; 1]%R ]}) = (Ok tt, w1) /\
    plot_rot_acfs_time [0; 1]%R [0%nat] "ps" true true "racf.png" w1
    = (Ok tt, w2) /\
    heap w2 = heap w1.
Proof.
  destruct (acf_normalization_is_idempotent [0; 1]%R [0%nat] "ps" "racf.png"
              true (World 0 [] {[ 0%nat := [2; 1]%R ]})) as [Htwice _].
  - simpl. lia.
  - intros l [<-|[]]. exists 2%R, [1%R]. cbn [heap].
    split; [by rewrite lookup_singleton_eq|]. split; [lra|reflexivity].
  - exact Htwice.
Defined.

Lemma saved_subplots w :
  saved (World (S (next_handle w)) (trace w ++ [PltSubplots (next_handle w)])
           (heap w)) = saved w.
Proof. unfold saved. simpl. rewrite omap_app. simpl. by rewrite app_nil_r. Qed.

(** The first sequence does not have the length of the time axis. *)
Lemma acf_routine_refused sc ylabel time l ls x0 rest tu grid file w :
  heap w !! l = Some (x0 :: rest) ->
  length (x0 :: rest) <> length time ->
  (fa ← plt_subplots;
   acf_loop fa.2 sc time true (l :: ls);;
   acf_frame fa.1 fa.2 time ylabel tu grid file) w
  = (Raise ValueError,
     World (S (next_handle w)) (trace w ++ [PltSubplots (next_handle w)])
       (<[l := divided_by_first (x0 :: rest)]> (heap w))).
Proof.
  intros Hl Hlen.
  run_ok (eq_refl : plt_subplots w = _).
  erewrite bind_raise; [reflexivity|].
  unfold acf_loop. cbn [for_enumerate].
  erewrite bind_raise; [reflexivity|].
  erewrite bind_ok; [|by apply (idiv_first_run l (x0 :: rest))].
  cbn [Nat.even].
  erewrite bind_ok; [|apply load_run; cbn [heap]; apply lookup_insert_eq].
  erewrite bind_raise; [reflexivity|].
  apply ax_plot_raise.
  apply (plot_args_refused time _
           (length (divided_by_first (x0 :: rest))) []); [reflexivity|].
  rewrite divided_by_first_length. congruence.
Qed.

(** X6. A normalizing call that is refused has already written: when
    the first sequence does not have the length of the time axis, the
    call ends in the drawing surface's [ValueError] and writes no file,
    but that sequence has been normalized in the caller's array. *)
Theorem refused_acf_is_already_normalized (time : list R) (l : nat)
    (ls : list nat) (x0 : R) (rest : list R) (tu file : string) (grid : bool)
    (w : world) :
  heap w !! l = Some (x0 :: rest) -> x0 <> 0%R ->
  length (x0 :: rest) <> length time ->
  exists w1 w2,
    plot_rot_acfs_time time (l :: ls) tu true grid file w
    = (Raise ValueError, w1) /\
    plot_force_acfs_time time (l :: ls) tu true grid file w
    = (Raise ValueError, w2) /\
    heap w1 = <[l := divided_by_first (x0 :: rest)]> (heap w) /\
    heap w2 = heap w1 /\
    saved w1 = saved w /\ saved w2 = saved w.
Proof.
  intros Hl _ Hlen. eexists _, _.
  split; [by apply (acf_routine_refused Linear _ time l ls x0 rest)|].
  split; [by apply (acf_routine_refused SemilogX _ time l ls x0 rest)|].
  repeat split; apply saved_subplots.
Qed.

Lemma refused_acf_is_already_normalized_witness :
  exists w1,
    plot_rot_acfs_time [0; 1; 2]%R [0%nat] "ps" true true "racf.png"
      (World 0 [] {[ 0%nat := [2; 1]%R ]}) = (Raise ValueError, w1) /\
    heap w1 = <[0%nat := divided_by_first [2; 1]%R]> {[ 0%nat := [2; 1]%R ]}.
Proof.
  destruct (refused_acf_is_already_normalized [0; 1; 2]%R 0 [] 2 [1%R] "ps"
              "racf.png" true (World 0 [] {[ 0%nat := [2; 1]%R ]}))
    as (w1 & w2 & Hrun & _ & Hheap & _).
  - cbn [heap]. by rewrite lookup_singleton_eq.
  - lra.
  - simpl. lia.
  - exists w1. split; [exact Hrun|exact Hheap].
Defined.

(** An empty first sequence. *)
Lemma acf_routine_empty_sequence sc ylabel time l ls tu grid file w :
  heap w !! l = Some [] ->
  (fa ← plt_subplots;
   acf_loop fa.2 sc time true (l :: ls);;
   acf_frame fa.1 fa.2 time ylabel tu grid file) w
  = (Raise IndexError,
     World (S (next_handle w)) (trace w ++ [PltSubplots (next_handle w)])
       (heap w)).
Proof.
  intros Hl.
  run_ok (eq_refl : plt_subplots w = _).
  erewrite bind_raise; [reflexivity|].
  unfold acf_loop. cbn [for_enumerate].
  erewrite bind_raise; [reflexivity|].
  erewrite bind_raise; [reflexivity|].
  unfold idiv_first.
  erewrite bind_ok; [|apply load_run; exact Hl].
  erewrite bind_raise; reflexivity.
Qed.

(** X7. An empty sequence cannot be normalized: when the first sequence
    is empty, a normalizing call ends in an [IndexError] at [racf[0]],
    before anything is drawn; no array is changed and no file written. *)
Theorem empty_acf_is_an_index_error (time : list R) (l : nat)
    (ls : list nat) (tu file : string) (grid : bool) (w : world) :
  heap w !! l = Some [] ->
  exists w1 w2,
    plot_rot_acfs_time time (l :: ls) tu true grid file w
    = (Raise IndexError, w1) /\
    plot_force_acfs_time time (l :: ls) tu true grid file w
    = (Raise IndexError, w2) /\
    heap w1 = heap w /\ heap w2 = heap w /\
    curves (trace w1) = curves (trace w) /\
    curves (trace w2) = curves (trace w) /\
    saved w1 = saved w /\ saved w2 = saved w.
Proof.
  intros Hl. eexists _, _.
  split; [by apply (acf_routine_empty_sequence Linear _ time l ls)|].
  split; [by apply (acf_routine_empty_sequence SemilogX _ time l ls)|].
  cbn [heap trace]. rewrite !curves_app. cbn.
  rewrite app_nil_r. repeat split; apply saved_subplots.
Qed.

Lemma empty_acf_is_an_index_error_witness :
  exists w1,
    plot_rot_acfs_time [0; 1]%R [0%nat] "ps" true true "racf.png"
      (World 0 [] {[ 0%nat := [] ]}) = (Raise IndexError, w1) /\
    heap w1 = {[ 0%nat := [] ]}.
Proof.
  destruct (empty_acf_is_an_index_error [0; 1]%R 0 [] "ps" "racf.png" true
              (World 0 [] {[ 0%nat := [] ]}))
    as (w1 & w2 & Hrun & _ & Hheap & _).
  - cbn [heap]. by rewrite lookup_singleton_eq.
  - exists w1. split; [exact Hrun|exact Hheap].
Defined.

(** X8. [plot_int_acfs_time] never writes into the caller's arrays,
    whatever it is given and however the call ends. *)
Theorem int_acfs_are_only_read (time : list R) (int_facfs : list nat)
    (tu file : string) (grid : bool) (w : world) :
  heap (plot_int_acfs_time time int_facfs tu grid file w).2 = heap w.
Proof. apply acf_routine_reads_only. Qed.



(** * Further properties of the profile routines *)

(** ** An empty coordinate axis *)

Lemma quiet_bind {A B} (m : M A) (k : A -> M B) :
  quiet m -> (forall a, quiet (k a)) -> quiet (m ≫= k).
Proof.
  intros Hm Hk w. unfold mbind, M_bind. specialize (Hm w).
  destruct (m w) as [[a|e] w']; simpl in Hm |- *; [|exact Hm].
  by rewrite Hk.
Qed.

Lemma quiet_ret {A} (a : A) : quiet (mret a).
Proof. intros w. reflexivity. Qed.

Lemma quiet_lift {A} (r : result A) : quiet (lift r).
Proof. intros w. reflexivity. Qed.

Lemma quiet_emit c :
  match c with FigSavefig _ _ _ => False | _ => True end -> quiet (emit c).
Proof.
  intros Hc w. unfold saved, emit. simpl. rewrite omap_app.
  destruct c; simpl; try (by rewrite app_nil_r). done.
Qed.

Lemma quiet_subplots : quiet plt_subplots.
Proof. intros w. apply saved_subplots. Qed.

Lemma quiet_ax_plot ax sc x y st : quiet (ax_plot ax sc x y st).
Proof.
  intros w. unfold ax_plot. destruct (plot_args_ok x y); [|done].
  unfold saved. simpl. rewrite omap_app. simpl. by rewrite app_nil_r.
Qed.

Lemma quiet_fill_between ax x y1 y2 fc ec al :
  quiet (ax_fill_between ax x y1 y2 fc ec al).
Proof.
  unfold ax_fill_between. destruct (fill_between_ok x y1 y2).
  - by apply quiet_emit.
  - apply quiet_lift.
Qed.

Lemma quiet_for_each {A} (body : A -> M unit) (l : list A) :
  (forall x, quiet (body x)) -> quiet (for_each l body).
Proof.
  intros Hbody. induction l as [|x l IH]; simpl.
  - apply quiet_ret.
  - apply quiet_bind; [apply Hbody|]. intros _. exact IH.
Qed.

Lemma quiet_legend b ax : quiet (legend_if b ax).
Proof. destruct b; [by apply quiet_emit|apply quiet_ret]. Qed.

Lemma quiet_figure figax : quiet (figure_and_axis figax).
Proof. destruct figax; [apply quiet_ret|apply quiet_subplots]. Qed.

(** Breaking a part that writes no file down into its steps. *)
Ltac quiet_all :=
  repeat first
    [ apply quiet_bind; [|intros ?]
    | apply quiet_ret | apply quiet_lift | apply quiet_subplots
    | apply quiet_ax_plot | apply quiet_fill_between
    | apply quiet_legend | apply quiet_figure
    | apply quiet_emit; exact I
    | apply quiet_for_each; intros ?
    | match goal with
      | |- quiet (if ?b then _ else _) => destruct b
      end ].

Lemma quiet_bulk_reference ax zmin : quiet (bulk_reference ax zmin).
Proof. unfold bulk_reference. quiet_all. Qed.

Lemma fails_here {A B} e (k : A -> M B) :
  fails_unsaved (lift (Raise e) ≫= k).
Proof. intros w. split; [by exists e|reflexivity]. Qed.

Lemma fails_later {A B} (m : M A) (k : A -> M B) :
  quiet m -> (forall a, fails_unsaved (k a)) -> fails_unsaved (m ≫= k).
Proof.
  intros Hm Hk w. unfold mbind, M_bind. specialize (Hm w).
  destruct (m w) as [[a|e] w']; simpl in Hm |- *.
  - destruct (Hk a w') as [Hraise Hsaved]. split; [exact Hraise|].
    by rewrite Hsaved.
  - split; [by exists e|exact Hm].
Qed.

(** Walking to the statement that fails. *)
Ltac fails_at_index :=
  repeat first
    [ apply fails_here
    | apply fails_later;
      [first [apply quiet_bulk_reference | quiet_all]|intros ?] ].

(** X10. With an empty coordinate axis no profile routine completes and
    none writes a file: each one ends in an exception, at the latest at
    [z_windows[0]]. [plot_diffusion_coefficient_z] reads [z_windows[0]]
    first and ends in the [IndexError] before it has opened a figure. *)
Theorem empty_axis_never_completes :
  (forall forces file zu yu pm alpha grid,
     fails_unsaved (plot_forces [] forces file zu yu pm alpha grid) /\
     fails_unsaved (plot_free_energy_z [] forces file zu yu pm alpha grid)) /\
  (forall resist zu ru file grid sys figax alpha sv lg,
     fails_unsaved
       (plot_resistance_z [] resist zu ru file grid sys figax alpha sv lg)) /\
  (forall v e zu yu file grid sys figax sv lg,
     fails_unsaved
       (plot_sym_diffusion_coefficient_z [] v e zu yu file grid sys figax
          sv lg) /\
     fails_unsaved
       (plot_symmetrized_free_energy [] v e zu yu file grid sys figax sv lg)) /\
  (forall dG dGe dz dze r re T kB zu file grid lg,
     fails_unsaved
       (plot_sym_exp_free_energy [] dG dGe dz dze r re T kB zu file grid lg)) /\
  (forall v e zu yu file grid w,
     plot_diffusion_coefficient_z [] v e zu yu file grid w
     = (Raise IndexError, w)).
Proof.
  split; [|split; [|split; [|split]]].
  - intros. split; unfold plot_forces, plot_free_energy_z, plot_sweeps;
      cbn [index0]; fails_at_index.
  - intros. unfold plot_resistance_z. cbn [index0]. fails_at_index.
  - intros. split;
      unfold plot_sym_diffusion_coefficient_z, plot_symmetrized_free_energy;
      cbn [index0]; fails_at_index.
  - intros. unfold plot_sym_exp_free_energy. cbn [index0]. fails_at_index.
  - reflexivity.
Qed.

(** ** Files, curves and bands of a completed call *)

Lemma saved_cons n c t h :
  saved (World n (c :: t) h)
  = match c with
    | FigSavefig _ f _ => f :: saved (World n t h)
    | _ => saved (World n t h)
    end.
Proof. by destruct c. Qed.

Lemma saved_append n t1 t2 h :
  saved (World n (t1 ++ t2) h) = saved (World n t1 h) ++ saved (World n t2 h).
Proof. apply omap_app. Qed.

Lemma saved_sweeps n h ax sc x st (ys : list ndarray) :
  saved (World n (map (fun y => AxPlot ax sc x y st) ys) h) = [].
Proof. induction ys as [|y ys IH]; [done|]. exact IH. Qed.

Lemma saved_world w : saved w = saved (World 0 (trace w) ∅).
Proof. reflexivity. Qed.

(** The files of an explicit list of calls. *)
Ltac saved_trace :=
  rewrite (saved_world (World _ _ _)); cbn [trace];
  repeat (rewrite ?saved_append, ?saved_cons, ?saved_sweeps);
  change (saved (World 0 [] ∅)) with (@nil string);
  rewrite ?app_nil_r, ?app_nil_l.

Lemma figure_and_axis_cases figax w :
  exists fa w1,
    figure_and_axis figax w = (Ok fa, w1) /\ saved w1 = saved w /\
    curves (trace w1) = curves (trace w) /\
    bands (trace w1) = bands (trace w) /\
    (length (trace w) <= length (trace w1))%nat /\
    match figax with
    | Some fa0 => fa = fa0 /\ next_handle w1 = next_handle w
    | None => fa = (next_handle w, next_handle w) /\
              next_handle w1 = S (next_handle w)
    end.
Proof.
  destruct figax as [fa0|].
  - exists fa0, w. repeat split; done.
  - eexists _, _. split; [reflexivity|]. split; [apply saved_subplots|].
    cbn [trace next_handle]. unfold curves, bands. rewrite !omap_app.
    cbn. rewrite !app_nil_r, length_app. repeat split; lia.
Qed.

(** X11. The three routines that can draw onto a figure of the caller
    write their file exactly when [savefig] is set; they hand back the
    figure and axis they were given, opening none, or the one figure they
    opened when they were given none. *)
Theorem overlay_routines_save_on_request (z : list R) :
  (0 < length z)%nat ->
  (forall resist n zu ru file grid sys figax alpha sv lg,
     shape resist = [n; length z] ->
     saves_on_request
       (plot_resistance_z z resist zu ru file grid sys figax alpha sv lg)
       figax sv file) /\
  (forall v e zu yu file grid sys figax sv lg,
     length v = length z -> length e = length z ->
     saves_on_request
       (plot_sym_diffusion_coefficient_z z v e zu yu file grid sys figax
          sv lg) figax sv file /\
     saves_on_request
       (plot_symmetrized_free_energy z v e zu yu file grid sys figax sv lg)
       figax sv file).
Proof.
  intros Hz. destruct (index0_nonempty z Hz) as [z0 Hz0]. split.
  - intros resist n zu ru file grid sys figax alpha sv lg Hs w.
    destruct (figure_and_axis_cases figax w)
      as (fa & w1 & Hfig & Hsaved & _ & _ & _ & Hfa).
    destruct (plot_resistance_z_ok z resist zu ru file grid sys figax alpha
                sv lg w n (length z) z0 fa w1 Hs eq_refl Hz0 Hfig)
      as (m & s & _ & _ & Hrun).
    eexists _, _. split; [exact Hrun|]. split.
    + rewrite <- Hsaved. rewrite (saved_world w1). saved_trace.
      by destruct lg, sv.
    + cbn [next_handle]. exact Hfa.
  - intros v e zu yu file grid sys figax sv lg Hv He. split; intros w.
    + destruct (figure_and_axis_cases figax w)
        as (fa & w1 & Hfig & Hsaved & _ & _ & _ & Hfa).
      eexists _, _. split.
      * by apply (plot_sym_diffusion_coefficient_z_ok z v e zu yu file grid
                    sys figax sv lg w z0 fa w1).
      * split; [|exact Hfa].
        rewrite <- Hsaved. rewrite (saved_world w1). saved_trace.
        by destruct lg, sv.
    + destruct (figure_and_axis_cases figax w)
        as (fa & w1 & Hfig & Hsaved & _ & _ & _ & Hfa).
      eexists _, _. split.
      * by apply (plot_symmetrized_free_energy_ok z v e zu yu file grid
                    sys figax sv lg w z0 fa w1).
      * split; [|exact Hfa].
        rewrite <- Hsaved. rewrite (saved_world w1). saved_trace.
        by destruct lg, sv.
Qed.

Lemma overlay_routines_save_on_request_witness :
  saves_on_request
    (plot_symmetrized_free_energy [-1; 1]%R [2; 4]%R [1; 1]%R "A" "kcal/mol"
       "delG-sym.pdf" true None (Some (3%nat, 3%nat)) false false)
    (Some (3%nat, 3%nat)) false "delG-sym.pdf".
Proof.
  destruct (overlay_routines_save_on_request [-1; 1]%R) as [_ Hvec].
  - simpl. lia.
  - by apply (Hvec [2; 4]%R [1; 1]%R "A"%string "kcal/mol"%string
                "delG-sym.pdf"%string true None (Some (3%nat, 3%nat)) false
                false).
Defined.

Lemma curves_sweeps ax sc x st (ys : list ndarray) :
  curves (map (fun y => AxPlot ax sc x y st) ys) = ys.
Proof.
  induction ys as [|y ys IH]; [done|].
  by rewrite map_cons, curves_cons, IH.
Qed.

Lemma bands_app t1 t2 : bands (t1 ++ t2) = bands t1 ++ bands t2.
Proof. apply omap_app. Qed.

Lemma bands_cons c t :
  bands (c :: t)
  = match band_of c with Some b => b :: bands t | None => bands t end.
Proof. reflexivity. Qed.

Lemma bands_sweeps ax sc x st (ys : list ndarray) :
  bands (map (fun y => AxPlot ax sc x y st) ys) = [].
Proof.
  induction ys as [|y ys IH]; [done|].
  by rewrite map_cons, bands_cons.
Qed.

(** The curves and the bands of an explicit list of calls. *)
Ltac curves_trace :=
  cbn [trace];
  repeat (rewrite ?curves_app, ?curves_cons, ?curves_sweeps; cbn [curve_of]);
  change (curves []) with (@nil ndarray);
  rewrite ?app_nil_r, ?app_nil_l.

Ltac bands_trace :=
  cbn [trace];
  repeat (rewrite ?bands_app, ?bands_cons, ?bands_sweeps; cbn [band_of]);
  change (bands []) with (@nil (ndarray * ndarray));
  rewrite ?app_nil_r, ?app_nil_l.

(** X12. A completed call of [plot_forces] or [plot_free_energy_z] has
    drawn one curve for each sweep, after the mean curve when the mean is
    asked for, and nothing else; it has filled one band when the mean is
    asked for and none otherwise; and it has written exactly one file. *)
Theorem sweep_routines_draw_each_sweep (z : list R) (forces : ndarray)
    (n : nat) (file zu yu : string) (pm : bool) (alpha : R) (grid : bool)
    (w : world) :
  (0 < length z)%nat ->
  shape (normalize_to_matrix forces) = [n; length z] ->
  exists m s w1 w2,
    ensemble_mean (normalize_to_matrix forces) = Ok m /\
    ensemble_std_err (normalize_to_matrix forces) = Ok s /\
    plot_forces z forces file zu yu pm alpha grid w = (Ok tt, w1) /\
    plot_free_energy_z z forces file zu yu pm alpha grid w = (Ok tt, w2) /\
    curves (trace w1)
    = curves (trace w) ++ (if pm then [m] else []) ++
      map (NdArray [length z]) (rows_of (normalize_to_matrix forces)) /\
    length (rows_of (normalize_to_matrix forces)) = n /\
    bands (trace w1)
    = bands (trace w) ++ (if pm then [(nd_add m s, nd_sub m s)] else []) /\
    saved w1 = saved w ++ [file] /\
    curves (trace w2) = curves (trace w1) /\
    bands (trace w2) = bands (trace w1) /\ saved w2 = saved w1.
Proof.
  intros Hz Hs. destruct (index0_nonempty z Hz) as [z0 Hz0].
  destruct (plot_sweeps_ok ("F(z) [" ++ yu ++ "]") z forces file zu pm alpha
              grid w n (length z) z0 Hs eq_refl Hz0)
    as (m & s & Hm & Hse & Hrun1).
  destruct (plot_sweeps_ok ("ΔG(z) [" ++ yu ++ "]") z forces file zu pm alpha
              grid w n (length z) z0 Hs eq_refl Hz0)
    as (m2 & s2 & Hm2 & Hse2 & Hrun2).
  rewrite Hm in Hm2. rewrite Hse in Hse2.
  injection Hm2 as <-. injection Hse2 as <-.
  exists m, s. eexists _, _. split; [exact Hm|]. split; [exact Hse|].
  split; [exact Hrun1|]. split; [exact Hrun2|].
  split; [destruct pm; curves_trace; reflexivity|].
  split.
  { rewrite (rows_of_matrix _ n (length z) Hs). apply chunks_length. }
  split; [destruct pm; bands_trace; reflexivity|].
  split; [rewrite (saved_world w); destruct pm; saved_trace; reflexivity|].
  split; [destruct pm; curves_trace; reflexivity|].
  split; [destruct pm; bands_trace; reflexivity|].
  rewrite (saved_world (World _ _ _)). symmetry.
  rewrite (saved_world (World _ _ _)). cbn [trace].
  destruct pm;
    repeat (rewrite ?saved_append, ?saved_cons, ?saved_sweeps); reflexivity.
Qed.

Lemma sweep_routines_draw_each_sweep_witness :
  exists m s w1 w2,
    ensemble_mean (normalize_to_matrix (vec [1; 2]%R)) = Ok m /\
    ensemble_std_err (normalize_to_matrix (vec [1; 2]%R)) = Ok s /\
    plot_forces [-1; 1]%R (vec [1; 2]%R) "forces.pdf" "A" "k" false 0.5 true
      fresh = (Ok tt, w1) /\
    plot_free_energy_z [-1; 1]%R (vec [1; 2]%R) "forces.pdf" "A" "k" false 0.5
      true fresh = (Ok tt, w2) /\
    curves (trace w1)
    = curves (trace fresh) ++ [] ++
      map (NdArray [2%nat]) (rows_of (normalize_to_matrix (vec [1; 2]%R))).
Proof.
  destruct (sweep_routines_draw_each_sweep [-1; 1]%R (vec [1; 2]%R) 1
              "forces.pdf" "A" "k" false 0.5 true fresh)
    as (m & s & w1 & w2 & Hm & Hs & H1 & H2 & Hc & _).
  - simpl. lia.
  - reflexivity.
  - exists m, s, w1, w2. repeat split; assumption.
Defined.

(** X13. A completed call of [plot_diffusion_coefficient_z],
    [plot_sym_diffusion_coefficient_z] or [plot_symmetrized_free_energy]
    on a profile and an error of the length of the axis has filled
    exactly one band, between [v + e] and [v - e]. *)
Theorem reduced_profiles_fill_one_band (z v e : list R) :
  (0 < length z)%nat -> length v = length z -> length e = length z ->
  band_around v e (vec (zip_with Rplus v e)) (vec (zip_with Rminus v e)) /\
  (forall zu yu file grid w,
     exists w',
       plot_diffusion_coefficient_z z v e zu yu file grid w = (Ok tt, w') /\
       bands (trace w')
       = bands (trace w) ++
         [(vec (zip_with Rplus v e), vec (zip_with Rminus v e))]) /\
  (forall zu yu file grid sys figax sv lg w,
     exists fa w1 w2,
       plot_sym_diffusion_coefficient_z z v e zu yu file grid sys figax sv lg
         w = (Ok fa, w1) /\
       plot_symmetrized_free_energy z v e zu yu file grid sys figax sv lg w
       = (Ok fa, w2) /\
       bands (trace w1)
       = bands (trace w) ++
         [(vec (zip_with Rplus v e), vec (zip_with Rminus v e))] /\
       bands (trace w2) = bands (trace w1)).
Proof.
  intros Hz Hv He. destruct (index0_nonempty z Hz) as [z0 Hz0].
  split; [by left|]. split.
  - intros zu yu file grid w. eexists. split.
    + by apply (plot_diffusion_coefficient_z_ok z v e zu yu file grid w z0).
    + bands_trace. reflexivity.
  - intros zu yu file grid sys figax sv lg w.
    destruct (figure_and_axis_cases figax w)
      as (fa & w1 & Hfig & _ & _ & Hb & _).
    exists fa. eexists _, _. split; [|split; [|split]].
    + by apply (plot_sym_diffusion_coefficient_z_ok z v e zu yu file grid
                  sys figax sv lg w z0 fa w1).
    + by apply (plot_symmetrized_free_energy_ok z v e zu yu file grid
                  sys figax sv lg w z0 fa w1).
    + rewrite <- Hb. destruct lg, sv; bands_trace; reflexivity.
    + destruct lg, sv; bands_trace; reflexivity.
Qed.

Lemma reduced_profiles_fill_one_band_witness :
  exists w',
    plot_diffusion_coefficient_z [-1; 1]%R [2; 4]%R [1; 1]%R "A" "cm2/s"
      "d_z.pdf" true fresh = (Ok tt, w') /\
    bands (trace w')
    = bands (trace fresh) ++
      [(vec (zip_with Rplus [2; 4]%R [1; 1]%R),
        vec (zip_with Rminus [2; 4]%R [1; 1]%R))].
Proof.
  destruct (reduced_profiles_fill_one_band [-1; 1]%R [2; 4]%R [1; 1]%R)
    as (_ & Hd & _).
  - simpl. lia.
  - reflexivity.
  - reflexivity.
  - apply Hd.
Defined.

(** X14. In [plot_sym_diffusion_coefficient_z] and
    [plot_symmetrized_free_energy] the band takes the colour of the
    profile curve drawn by the same call, also when the call draws onto a
    figure on which other curves are already drawn. *)
Theorem band_takes_the_colour_of_its_curve (z v e : list R) :
  (0 < length z)%nat -> length v = length z -> length e = length z ->
  forall zu yu file grid sys figax sv lg w,
    exists fa w1 w2 h,
      plot_sym_diffusion_coefficient_z z v e zu yu file grid sys figax sv lg
        w = (Ok fa, w1) /\
      plot_symmetrized_free_energy z v e zu yu file grid sys figax sv lg w
      = (Ok fa, w2) /\
      (length (trace w) <= h)%nat /\
      trace w1 !! h
      = Some (AxPlot fa.2 SemilogY z (vec v)
                (LineStyle sys None None None None)) /\
      trace w2 !! h
      = Some (AxPlot fa.2 Linear z (vec v)
                (LineStyle sys None None None None)) /\
      (forall w', w' = w1 \/ w' = w2 ->
         In (AxFillBetween fa.2 z (vec (zip_with Rplus v e))
               (vec (zip_with Rminus v e)) (ColorOf h) (ColorOf h)
               (Some 0.2%R)) (trace w')).
Proof.
  intros Hz Hv He zu yu file grid sys figax sv lg w.
  destruct (index0_nonempty z Hz) as [z0 Hz0].
  destruct (figure_and_axis_cases figax w)
    as (fa & w1 & Hfig & _ & _ & _ & Hlen & _).
  exists fa. eexists _, _, (length (trace w1)).
  split; [by apply (plot_sym_diffusion_coefficient_z_ok z v e zu yu file grid
                      sys figax sv lg w z0 fa w1)|].
  split; [by apply (plot_symmetrized_free_energy_ok z v e zu yu file grid
                      sys figax sv lg w z0 fa w1)|].
  split; [exact Hlen|]. cbn [trace]. split; [|split].
  - rewrite lookup_app_r by lia. by rewrite Nat.sub_diag.
  - rewrite lookup_app_r by lia. by rewrite Nat.sub_diag.
  - intros w' [-> | ->]; cbn [trace]; rewrite !in_app_iff; simpl; auto 10.
Qed.

Lemma band_takes_the_colour_of_its_curve_witness :
  exists fa w1 w2 h,
    plot_sym_diffusion_coefficient_z [-1; 1]%R [2; 4]%R [1; 1]%R "A" "cm2/s"
      "d-sym_z.pdf" true None None false false fresh = (Ok fa, w1) /\
    plot_symmetrized_free_energy [-1; 1]%R [2; 4]%R [1; 1]%R "A" "cm2/s"
      "d-sym_z.pdf" true None None false false fresh = (Ok fa, w2) /\
    (length (trace fresh) <= h)%nat.
Proof.
  destruct (band_takes_the_colour_of_its_curve [-1; 1]%R [2; 4]%R [1; 1]%R)
    with (zu := "A"%string) (yu := "cm2/s"%string)
         (file := "d-sym_z.pdf"%string) (grid := true)
         (sys := @None string) (figax := @None (nat * nat)) (sv := false)
         (lg := false) (w := fresh)
    as (fa & w1 & w2 & h & H1 & H2 & Hh & _).
  - simpl. lia.
  - reflexivity.
  - reflexivity.
  - exists fa, w1, w2, h. repeat split; assumption.
Defined.

(** ** Errors that do not have the length of the profile *)

Lemma np_binop_scalar (f : R -> R -> R) (v : list R) (e0 : R) :
  np_binop f v [e0] = Ok (map (fun x => f x e0) v).
Proof. by destruct v as [|a [|b v]]. Qed.

Lemma np_binop_mismatch (f : R -> R -> R) (u v : list R) :
  length u <> length v -> length u <> 1%nat -> length v <> 1%nat ->
  np_binop f u v = Raise ValueError.
Proof.
  intros Huv Hu Hv. unfold np_binop.
  destruct (Nat.eqb_spec (length u) (length v)) as [|_]; [done|].
  destruct u as [|a [|b u]], v as [|c [|d v]]; simpl in *; done.
Qed.

(** X15. An error of one element stands for a constant error: handed to
    [plot_diffusion_coefficient_z] or [plot_symmetrized_free_energy] with
    a profile of the length of the axis, it is added to and subtracted
    from every value of the profile, and the call completes with that
    band. *)
Theorem constant_error_is_broadcast (z v : list R) (e0 : R) :
  (0 < length z)%nat -> length v = length z ->
  (forall zu yu file grid w,
     exists w',
       plot_diffusion_coefficient_z z v [e0] zu yu file grid w = (Ok tt, w') /\
       bands (trace w')
       = bands (trace w) ++
         [(vec (map (fun x => (x + e0)%R) v),
           vec (map (fun x => (x - e0)%R) v))]) /\
  (forall zu yu file grid sys figax sv lg w,
     exists fa w',
       plot_symmetrized_free_energy z v [e0] zu yu file grid sys figax sv lg w
       = (Ok fa, w') /\
       bands (trace w')
       = bands (trace w) ++
         [(vec (map (fun x => (x + e0)%R) v),
           vec (map (fun x => (x - e0)%R) v))]).
Proof.
  intros Hz Hv. destruct (index0_nonempty z Hz) as [z0 Hz0].
  assert (Hfill : fill_between_ok z (vec (map (fun x => (x + e0)%R) v))
                    (vec (map (fun x => (x - e0)%R) v)) = true).
  { apply fill_between_ok_vec; by rewrite length_map. }
  split.
  - intros zu yu file grid w. unfold plot_diffusion_coefficient_z.
    rewrite Hz0. run_ok (lift_run (A:=R)).
    run_ok (eq_refl : plt_subplots w = _).
    run_by ax_plot_ok ltac:(by apply plot_args_ok_vec).
    run_ok bulk_reference_run.
    rewrite !np_binop_scalar.
    run_ok (lift_run (A:=list R)). run_ok (lift_run (A:=list R)).
    run_by ax_fill_between_ok ltac:(exact Hfill).
    repeat (run_ok emit_run). rewrite emit_run.
    eexists. split; [reflexivity|]. bands_trace. reflexivity.
  - intros zu yu file grid sys figax sv lg w.
    destruct (figure_and_axis_cases figax w)
      as (fa & w1 & Hfig & _ & _ & Hb & _).
    unfold plot_symmetrized_free_energy. run_ok Hfig.
    run_by ax_plot_ok ltac:(by apply plot_args_ok_vec).
    rewrite !np_binop_scalar.
    run_ok (lift_run (A:=list R)). run_ok (lift_run (A:=list R)).
    run_by ax_fill_between_ok ltac:(exact Hfill).
    repeat (run_ok emit_run). run_ok legend_if_run.
    rewrite Hz0. run_ok (lift_run (A:=R)).
    repeat (run_ok emit_run). run_ok save_bottom_if_run.
    eexists _, _. split; [reflexivity|].
    rewrite <- Hb. destruct lg, sv; bands_trace; reflexivity.
Qed.

Lemma constant_error_is_broadcast_witness :
  exists w',
    plot_diffusion_coefficient_z [-1; 1]%R [2; 4]%R [1%R] "A" "cm2/s"
      "d_z.pdf" true fresh = (Ok tt, w') /\
    bands (trace w')
    = bands (trace fresh) ++
      [(vec (map (fun x => (x + 1)%R) [2; 4]%R),
        vec (map (fun x => (x - 1)%R) [2; 4]%R))].
Proof.
  destruct (constant_error_is_broadcast [-1; 1]%R [2; 4]%R 1) as [Hd _].
  - simpl. lia.
  - reflexivity.
  - apply Hd.
Defined.

(** X16. An error that has neither the length of the profile nor one
    element is refused by NumPy when the bounds of the band are computed:
    the call ends in a [ValueError] and writes no file, and the profile
    curve has been drawn by then. *)
Theorem mismatched_error_is_refused (z v e : list R) :
  (0 < length z)%nat -> length v = length z ->
  length e <> length v -> length e <> 1%nat -> length v <> 1%nat ->
  (forall zu yu file grid w,
     exists w',
       plot_diffusion_coefficient_z z v e zu yu file grid w
       = (Raise ValueError, w') /\
       saved w' = saved w /\ In (vec v) (curves (trace w'))) /\
  (forall zu yu file grid sys figax sv lg w,
     exists w1 w2,
       plot_sym_diffusion_coefficient_z z v e zu yu file grid sys figax sv lg
         w = (Raise ValueError, w1) /\
       plot_symmetrized_free_energy z v e zu yu file grid sys figax sv lg w
       = (Raise ValueError, w2) /\
       saved w1 = saved w /\ saved w2 = saved w /\
       In (vec v) (curves (trace w1)) /\ In (vec v) (curves (trace w2))).
Proof.
  intros Hz Hv He He1 Hv1. destruct (index0_nonempty z Hz) as [z0 Hz0].
  assert (Hplus : np_binop Rplus v e = Raise ValueError)
    by (apply np_binop_mismatch; congruence).
  split.
  - intros zu yu file grid w. unfold plot_diffusion_coefficient_z.
    rewrite Hz0. run_ok (lift_run (A:=R)).
    run_ok (eq_refl : plt_subplots w = _).
    run_by ax_plot_ok ltac:(by apply plot_args_ok_vec).
    run_ok bulk_reference_run.
    rewrite Hplus. erewrite bind_raise; [|apply lift_run].
    eexists. split; [reflexivity|]. split.
    + rewrite (saved_world w). saved_trace. reflexivity.
    + curves_trace; rewrite ?in_app_iff; simpl; auto 10.
  - intros zu yu file grid sys figax sv lg w.
    destruct (figure_and_axis_cases figax w)
      as (fa & w1 & Hfig & Hsaved & _ & _ & _ & _).
    eexists _, _. split; [|split].
    + unfold plot_sym_diffusion_coefficient_z. run_ok Hfig.
      run_by ax_plot_ok ltac:(by apply plot_args_ok_vec).
      rewrite Hz0. run_ok (lift_run (A:=R)).
      run_ok bulk_reference_run.
      rewrite Hplus. erewrite bind_raise; [|apply lift_run]. reflexivity.
    + unfold plot_symmetrized_free_energy. run_ok Hfig.
      run_by ax_plot_ok ltac:(by apply plot_args_ok_vec).
      rewrite Hplus. erewrite bind_raise; [|apply lift_run]. reflexivity.
    + rewrite <- !Hsaved, (saved_world w1).
      repeat split.
      * saved_trace. reflexivity.
      * saved_trace. reflexivity.
      * curves_trace; rewrite ?in_app_iff; simpl; auto 10.
      * curves_trace; rewrite ?in_app_iff; simpl; auto 10.
Qed.

Lemma mismatched_error_is_refused_witness :
  exists w',
    plot_diffusion_coefficient_z [-1; 1]%R [2; 4]%R [1; 1; 1]%R "A" "cm2/s"
      "d_z.pdf" true fresh = (Raise ValueError, w') /\
    saved w' = saved fresh /\ In (vec [2; 4]%R) (curves (trace w')).
Proof.
  destruct (mismatched_error_is_refused [-1; 1]%R [2; 4]%R [1; 1; 1]%R)
    as [Hd _]; simpl; try lia.
  apply Hd.
Defined.

(** * The time series of the forces *)

Lemma chunks_concat p (ls : list (list R)) :
  Forall (fun l => length l = p) ls ->
  chunks (length ls) p (concat ls) = ls.
Proof.
  induction 1 as [|l ls Hl _ IH]; [done|].
  subst p. simpl. by rewrite take_app_length, drop_app_length, IH.
Qed.

Lemma chunks_of_ones c (r : list R) :
  length r = c -> map (fun s => nth 0 s 0%R) (chunks c 1 r) = r.
Proof.
  revert r. induction c as [|c IH]; intros [|x r] Hr; simpl in *; try done.
  rewrite drop_0. rewrite IH by lia. reflexivity.
Qed.

Lemma transpose_row c (r : list R) :
  length r = c -> transpose_data [c] r = r.
Proof.
  intros Hr. simpl. rewrite app_nil_r, map_map. simpl.
  by apply chunks_of_ones.
Qed.

Lemma transpose_data_cons d0 rest (d : list R) :
  transpose_data (d0 :: rest) d
  = concat (map (fun k =>
                   map (fun s => nth k s 0%R)
                     (map (transpose_data rest) (chunks d0 (size_of rest) d)))
              (seq 0 (size_of rest))).
Proof. reflexivity. Qed.

(** Iterating over the transposed matrix yields the columns. *)
Lemma iterate_transposed a n c :
  shape a = [n; c] -> well_shaped a ->
  iterate (np_T a)
  = Ok (map (fun j => NdArray [n] (column a j)) (seq 0 c)).
Proof.
  intros Hs Hw. pose proof (matrix_rows_length a n c Hs Hw) as Hrows.
  unfold iterate, np_T. rewrite Hs. cbn [rev app shape data size_of fold_right].
  rewrite Nat.mul_1_r. f_equal. rewrite transpose_data_cons.
  cbn [size_of fold_right]. rewrite Nat.mul_1_r.
  assert (Hsubs : map (transpose_data [c]) (chunks n c (data a)) = rows_of a).
  { rewrite (rows_of_matrix a n c Hs) in Hrows |- *.
    rewrite <- (map_id (chunks n c (data a))) at 2.
    apply Forall_fmap_ext_1. eapply Forall_impl; [exact Hrows|].
    intros r Hr. simpl in Hr. by apply transpose_row. }
  rewrite Hsubs.
  assert (Hlen : length (map (fun k => map (fun s => nth k s 0%R) (rows_of a))
                           (seq 0 c)) = c)
    by (by rewrite length_map, length_seq).
  rewrite <- Hlen at 1. rewrite chunks_concat.
  - by rewrite map_map.
  - apply Forall_fmap, Forall_true. intros k. simpl.
    rewrite length_map, (rows_of_matrix a n c Hs). apply chunks_length.
Qed.

(** The loop of [plot_timeseries] over series that the filter maps to
    series of the length of the time axis. *)
Lemma timeseries_loop filter (smooth : ndarray -> ndarray) ax time
    (ys : list ndarray) : forall w,
  Forall (fun y => plot_args_ok time y = true /\
                   filter y 15001%Z 3%Z = Ok (smooth y) /\
                   plot_args_ok time (smooth y) = true) ys ->
  for_each ys (fun force_series =>
    ax_plot ax Linear time force_series
      (LineStyle None None (Some 0%Z) None None);;
    smoothdata ← lift (filter force_series 15001%Z 3%Z);
    ax_plot ax Linear time smoothdata plain;;
    mret tt) w
  = (Ok tt,
     World (next_handle w)
       (trace w ++
        flat_map (fun y => [AxPlot ax Linear time y
                              (LineStyle None None (Some 0%Z) None None);
                            AxPlot ax Linear time (smooth y) plain]) ys)
       (heap w)).
Proof.
  induction ys as [|y ys IH]; intros w Hys; simpl.
  - rewrite app_nil_r. by destruct w.
  - inversion Hys as [|? ? (Hy & Hf & Hsm) Hrest]; subst.
    erewrite bind_ok.
    2:{ run_by ax_plot_ok ltac:(exact Hy). rewrite Hf.
        run_ok (lift_run (A:=ndarray)).
        run_by ax_plot_ok ltac:(exact Hsm). reflexivity. }
    rewrite IH by done. simpl. by rewrite <- !app_assoc.
Qed.

Lemma curves_pairs ax sc x st1 st2 (f g : ndarray -> ndarray)
    (ys : list ndarray) :
  curves (flat_map (fun y => [AxPlot ax sc x (f y) st1;
                              AxPlot ax sc x (g y) st2]) ys)
  = flat_map (fun y => [f y; g y]) ys.
Proof.
  induction ys as [|y ys IH]; [done|].
  cbn [flat_map app]. rewrite !curves_cons. cbn [curve_of]. by rewrite IH.
Qed.

Lemma saved_pairs n h ax sc x st1 st2 (f g : ndarray -> ndarray)
    (ys : list ndarray) :
  saved (World n (flat_map (fun y => [AxPlot ax sc x (f y) st1;
                                      AxPlot ax sc x (g y) st2]) ys) h) = [].
Proof. induction ys as [|y ys IH]; [done|]. exact IH. Qed.

(** X17. For a force matrix of one row per time sample and one column
    per window, and a filter that gives back series of the length of the
    time axis, [plot_timeseries] completes, has drawn for each window, in
    the order of the columns, the raw series of the window and then its
    smoothed series, and has written exactly one file. *)
Theorem timeseries_draws_raw_then_smoothed
    (filter : ndarray -> Z -> Z -> result ndarray)
    (smooth : ndarray -> ndarray) (time : list R) (forces : ndarray)
    (n c : nat) (tu fu file : string) (grid : bool) (w : world) :
  shape forces = [n; c] -> well_shaped forces -> length time = n ->
  (forall j, (j < c)%nat ->
     filter (NdArray [n] (column forces j)) 15001%Z 3%Z
     = Ok (smooth (NdArray [n] (column forces j))) /\
     shape (smooth (NdArray [n] (column forces j))) = [n]) ->
  exists w',
    plot_timeseries filter time forces tu fu grid file w = (Ok tt, w') /\
    curves (trace w')
    = curves (trace w) ++
      flat_map (fun y => [y; smooth y])
        (map (fun j => NdArray [n] (column forces j)) (seq 0 c)) /\
    saved w' = saved w ++ [file].
Proof.
  intros Hs Hw Ht Hfilter.
  assert (Hargs : forall y, shape y = [n] -> plot_args_ok time y = true).
  { intros y Hy. unfold plot_args_ok, first_dim, ndim. rewrite Hy. simpl.
    by rewrite Ht, Nat.eqb_refl. }
  unfold plot_timeseries.
  run_ok (eq_refl : plt_subplots w = _).
  rewrite (iterate_transposed forces n c Hs Hw).
  run_ok (lift_run (A:=list ndarray)).
  erewrite bind_ok.
  2:{ apply (timeseries_loop filter smooth). apply Forall_fmap.
      apply Forall_forall. intros j Hj. apply elem_of_seq in Hj. simpl.
      destruct (Hfilter j) as [Hf Hsh]; [lia|].
      split; [by apply Hargs|]. split; [exact Hf|by apply Hargs]. }
  cbn [next_handle trace heap].
  repeat (run_ok emit_run). rewrite emit_run.
  eexists. split; [reflexivity|]. split.
  - cbn [trace].
    repeat (rewrite ?curves_app, ?curves_cons; cbn [curve_of]).
    rewrite (curves_pairs _ _ _ _ _ (fun y => y) smooth).
    change (curves []) with (@nil ndarray). by rewrite !app_nil_r.
  - rewrite (saved_world w), (saved_world (World _ _ _)). cbn [trace].
    repeat (rewrite ?saved_append, ?saved_cons).
    rewrite (saved_pairs _ _ _ _ _ _ _ (fun y => y) smooth).
    change (saved (World 0 [] ∅)) with (@nil string).
    by rewrite !app_nil_r.
Qed.

Lemma timeseries_draws_raw_then_smoothed_witness :
  exists w',
    plot_timeseries (fun y _ _ => Ok y) [0; 1]%R
      (NdArray [2; 1]%nat [3; 5]%R) "ps" "kcal/mol-A" true
      "force_timeseries.png" fresh = (Ok tt, w') /\
    saved w' = saved fresh ++ ["force_timeseries.png"%string].
Proof.
  destruct (timeseries_draws_raw_then_smoothed (fun y _ _ => Ok y)
              (fun y => y) [0; 1]%R (NdArray [2; 1]%nat [3; 5]%R) 2 1
              "ps" "kcal/mol-A" "force_timeseries.png" true fresh)
    as (w' & Hrun & _ & Hsaved).
  - reflexivity.
  - reflexivity.
  - reflexivity.
  - intros j Hj. split; reflexivity.
  - exists w'. split; [exact Hrun|exact Hsaved].
Defined.


